(** * zig-toolchain: the version model and the reconciliation engine

    A shallow embedding of [main.go]: the [Version] value type with its
    equality, order, display and parser, the [Item] inventory built by
    [AppState.run] from the remote index, the tarball cache and the
    current-install directory, and the download command.

    Go strings are byte strings and are modelled by [string]; Go [int]s are
    modelled by [Z] (the program only compares and prints them, and every
    value it stores comes out of a 32-bit [strconv.ParseInt]).  A Go call
    either returns or panics: functions that can panic return in [res]. *)

From Stdlib Require Import ZArith Ascii String Lia Permutation.
From stdpp Require Import base list.

Local Open Scope string_scope.
Local Open Scope Z_scope.

(** ** Outcomes of a Go call *)

(** A returned Go [error] value. *)
Inductive error : Type :=
| ErrFailedToParse (v : string)      (* errors.New("Failed to parse version: " + v) *)
| ErrSyntax (fn num : string)        (* strconv.NumError with Err = ErrSyntax *)
| ErrRange (fn num : string)         (* strconv.NumError with Err = ErrRange *)
| ErrIO (what : string).             (* a failed network or file operation *)

(** What a panic carries. *)
Inductive panic : Type :=
| IndexOutOfRange (i : Z) (len : Z)  (* runtime error: index out of range *)
| SliceOutOfRange (i : Z) (len : Z)  (* runtime error: slice bounds out of range *)
| PanicErr (e : error)               (* panic(err) *)
| PanicMsg (msg : string).           (* panic("...") *)

(** A call returns a value, panics, or ends the process with [os.Exit]. *)
Inductive res (A : Type) : Type :=
| Ok (a : A)
| Panic (p : panic)
| Exit (code : Z).
Arguments Ok {A} a.
Arguments Panic {A} p.
Arguments Exit {A} code.

Definition bind {A B : Type} (m : res A) (k : A -> res B) : res B :=
  match m with
  | Ok a => k a
  | Panic p => Panic p
  | Exit c => Exit c
  end.

Notation "'do' x <- m ; k" := (bind m (fun x => k))
  (at level 10, x name, m at level 100, k at level 200).

(** [s[i]] on a slice. *)
Definition index {A : Type} (l : list A) (i : nat) : res A :=
  match l !! i with
  | Some a => Ok a
  | None => Panic (IndexOutOfRange (Z.of_nat i) (Z.of_nat (length l)))
  end.

(** [s[lo:]] and [s[0:hi]] on a slice; [hi] is a Go [int] and may be negative. *)
Definition slice_from {A : Type} (l : list A) (lo : nat) : res (list A) :=
  if (lo <=? length l)%nat then Ok (drop lo l)
  else Panic (SliceOutOfRange (Z.of_nat lo) (Z.of_nat (length l))).

Definition slice_to {A : Type} (l : list A) (hi : Z) : res (list A) :=
  if (0 <=? hi) && (hi <=? Z.of_nat (length l)) then Ok (take (Z.to_nat hi) l)
  else Panic (SliceOutOfRange hi (Z.of_nat (length l))).

(** ** The parts of Go's standard library the program calls *)

Module strings.

(** [strings.Split(s, sep)] for a one-byte separator: the fields between
    successive separators, never an empty slice. *)
Fixpoint Split (s : string) (sep : ascii) : list string :=
  match s with
  | EmptyString => [EmptyString]
  | String c r =>
      if Ascii.eqb c sep then EmptyString :: Split r sep
      else match Split r sep with
           | h :: t => String c h :: t
           | [] => [String c EmptyString]
           end
  end.

(** [strings.Join(elems, sep)]. *)
Fixpoint Join (elems : list string) (sep : string) : string :=
  match elems with
  | [] => EmptyString
  | [e] => e
  | e :: rest => e ++ sep ++ Join rest sep
  end.

(** [strings.HasPrefix(s, prefix)]. *)
Definition HasPrefix (s pre : string) : bool := String.prefix pre s.

End strings.

Module path.

(** The scan of [path.Ext], from the last byte leftwards.  The first
    component is the suffix starting at the first dot met before any slash;
    the second tells that the scan has stopped (at a dot or at a slash). *)
Fixpoint ext_scan (s : string) : option string * bool :=
  match s with
  | EmptyString => (None, false)
  | String c r =>
      match ext_scan r with
      | (Some e, _) => (Some e, true)
      | (None, true) => (None, true)
      | (None, false) =>
          if Ascii.eqb c "." then (Some (String c r), true)
          else if Ascii.eqb c "/" then (None, true)
          else (None, false)
      end
  end.

(** [path.Ext(p)]: the suffix beginning at the final dot of the final
    slash-separated element, empty if there is no dot. *)
Definition Ext (p : string) : string :=
  match ext_scan p with
  | (Some e, _) => e
  | (None, _) => EmptyString
  end.

End path.

Module strconv.

Definition is_digit (c : ascii) : bool :=
  (48 <=? Z.of_N (N_of_ascii c)) && (Z.of_N (N_of_ascii c) <=? 57).

Definition maxUint64 : Z := 2 ^ 64 - 1.

(** The loop of [strconv.ParseUint(s, 10, 32)] over the bytes left of the
    input, [n] being the [uint64] accumulator.  The result is the value
    and, on failure, whether the error is a range error. *)
Inductive numerr : Type := Syntax | Range.

Fixpoint ParseUint_loop (s : string) (n : Z) : Z * option numerr :=
  let cutoff := maxUint64 / 10 + 1 in
  let maxVal := 2 ^ 32 - 1 in
  match s with
  | EmptyString => (n, None)
  | String c r =>
      if is_digit c then
        let d := Z.of_N (N_of_ascii c) - 48 in
        if cutoff <=? n then (maxVal, Some Range)
        else
          let n10 := (n * 10) mod 2 ^ 64 in
          let n1 := (n10 + d) mod 2 ^ 64 in
          if (n1 <? n10) || (maxVal <? n1) then (maxVal, Some Range)
          else ParseUint_loop r n1
      else
        (* a letter is a digit of value 10 or more, not below the base;
           any other byte is not a digit at all *)
        (0, Some Syntax)
  end.

Definition ParseUint (s : string) : Z * option numerr :=
  match s with
  | EmptyString => (0, Some Syntax)
  | _ => ParseUint_loop s 0
  end.

(** [strconv.ParseInt(s, 10, 32)]: the value and the error, both of which
    Go returns (value 0 on a syntax error, the nearest bound on a range
    error). *)
Definition ParseInt (s0 : string) : Z * option error :=
  match s0 with
  | EmptyString => (0, Some (ErrSyntax "ParseInt" s0))
  | String c r =>
      let neg := Ascii.eqb c "-" in
      let s := if Ascii.eqb c "+" || neg then r else s0 in
      match ParseUint s with
      | (_, Some Syntax) => (0, Some (ErrSyntax "ParseInt" s0))
      | (un, _) =>
          (* no error or a range error: both fall through to the bounds *)
          let cutoff := 2 ^ 31 in
          if negb neg && (cutoff <=? un) then (cutoff - 1, Some (ErrRange "ParseInt" s0))
          else if neg && (cutoff <? un) then (- cutoff, Some (ErrRange "ParseInt" s0))
          else ((if neg then - un else un), None)
      end
  end.

Definition digit_char (d : Z) : ascii := ascii_of_N (Z.to_N (48 + d)).

(** The digit loop of [strconv.FormatInt] in base 10: digits are produced
    from the least significant one and prepended to [acc]; 20 rounds cover
    every [uint64]. *)
Fixpoint format_loop (fuel : nat) (u : Z) (acc : string) : string :=
  match fuel with
  | O => acc
  | S f =>
      let acc' := String (digit_char (u mod 10)) acc in
      if u / 10 =? 0 then acc' else format_loop f (u / 10) acc'
  end.

(** [strconv.FormatInt(i, 10)], which is what the verb [%d] prints. *)
Definition FormatInt (i : Z) : string :=
  if i <? 0 then String "-" (format_loop 20 (- i) EmptyString)
  else format_loop 20 i EmptyString.

End strconv.

(** ** Version *)

Record Version : Type := mkVersion {
  Major : Z;
  Minor : Z;
  Patch : Z;
  Dev : bool;
  Build : Z;
  Commit : string
}.

(** The zero value [Version{}]. *)
Definition Version_zero : Version := mkVersion 0 0 0 false 0 "".

(** [fmt.Sprintf("%d.%d.%d", a, b, c)]. *)
Definition Sprintf_triple (a b c : Z) : string :=
  strconv.FormatInt a ++ "." ++ strconv.FormatInt b ++ "." ++ strconv.FormatInt c.

(** [Version.String]. *)
Definition Version_String (v : Version) : string :=
  let s := Sprintf_triple (Major v) (Minor v) (Patch v) in
  if Dev v then s ++ "-dev-" ++ strconv.FormatInt (Build v) else s.

(** [Version.equal]. *)
Definition equal (v other : Version) : bool :=
  if Dev v || Dev other then
    if negb (Dev v && Dev other) then false
    else (Major v =? Major other) && (Minor v =? Minor other)
         && (Patch v =? Patch other) && (Build v =? Build other)
  else (Major v =? Major other) && (Minor v =? Minor other) && (Patch v =? Patch other).

(** [Version.lessThan]. *)
Definition lessThan (v other : Version) : bool :=
  if Major v =? Major other then
    if Minor v =? Minor other then
      if Patch v =? Patch other then
        if Dev v && Dev other then Build v <? Build other
        else if Dev v && negb (Dev other) then false
        else if negb (Dev v) && Dev other then true
        else false
      else Patch v <? Patch other
    else Minor v <? Minor other
  else Major v <? Major other.

(** [Version.moreThan]. *)
Definition moreThan (v other : Version) : bool := negb (lessThan v other).

(** What [ParseVersion] returns: [(result, nil)] or [(nil, err)]. *)
Inductive parsed : Type :=
| Parsed (v : Version)
| Failed (e : error).

(** [ParseVersion].  The three [err] of the numeric segments are one
    variable, assigned three times and read once. *)
Definition ParseVersion (v : string) : res parsed :=
  let sp := strings.Split v "-" in
  do sp0 <- index sp 0;
  let sp2 := strings.Split sp0 "." in
  if negb (length sp2 =? 3)%nat then Ok (Failed (ErrFailedToParse v))
  else
    do s0 <- index sp2 0;
    do s1 <- index sp2 1;
    do s2 <- index sp2 2;
    let '(major, _) := strconv.ParseInt s0 in
    let '(minor, _) := strconv.ParseInt s1 in
    let '(patch, err) := strconv.ParseInt s2 in
    match err with
    | Some e => Ok (Failed e)
    | None =>
        if (1 <? length sp)%nat then
          do sp1 <- index sp 1;
          do tail <- index (strings.Split sp1 ".") 1;
          let sp2 := strings.Split tail "+" in
          do b <- index sp2 0;
          let '(build, err) := strconv.ParseInt b in
          match err with
          | Some e => Ok (Failed e)
          | None =>
              do c <- index sp2 1;
              Ok (Parsed (mkVersion major minor patch true build c))
          end
        else Ok (Parsed (mkVersion major minor patch false 0 ""))
    end.

(** ** Items and the application state *)

Record Item : Type := mkItem {
  ItemVersion : Version;      (* field Version *)
  Downloaded : bool;
  Current : bool;
  Indexed : bool;
  Master : bool;
  LocalPath : string;
  RemoteUrl : string
}.

(** The zero value [Item{}]. *)
Definition Item_zero : Item := mkItem Version_zero false false false false "" "".

Definition set_ItemVersion (v : Version) (it : Item) : Item :=
  mkItem v (Downloaded it) (Current it) (Indexed it) (Master it) (LocalPath it) (RemoteUrl it).
Definition set_Downloaded (b : bool) (it : Item) : Item :=
  mkItem (ItemVersion it) b (Current it) (Indexed it) (Master it) (LocalPath it) (RemoteUrl it).
Definition set_Current (b : bool) (it : Item) : Item :=
  mkItem (ItemVersion it) (Downloaded it) b (Indexed it) (Master it) (LocalPath it) (RemoteUrl it).
Definition set_Indexed (b : bool) (it : Item) : Item :=
  mkItem (ItemVersion it) (Downloaded it) (Current it) b (Master it) (LocalPath it) (RemoteUrl it).
Definition set_Master (b : bool) (it : Item) : Item :=
  mkItem (ItemVersion it) (Downloaded it) (Current it) (Indexed it) b (LocalPath it) (RemoteUrl it).
Definition set_LocalPath (p : string) (it : Item) : Item :=
  mkItem (ItemVersion it) (Downloaded it) (Current it) (Indexed it) (Master it) p (RemoteUrl it).
Definition set_RemoteUrl (u : string) (it : Item) : Item :=
  mkItem (ItemVersion it) (Downloaded it) (Current it) (Indexed it) (Master it) (LocalPath it) u.

(** [AppState.Items]: the slice of items.  A [*Item] into the slice is the
    index of its element, and a write through it is [alter] at that index. *)
Abbreviation AppState := (list Item).

(** [AppState.GetItemByVersion]: the index of the first item whose version
    is [equal] to [v]. *)
Fixpoint GetItemByVersion (items : AppState) (v : Version) : option nat :=
  match items with
  | [] => None
  | item :: rest =>
      if equal (ItemVersion item) v then Some 0%nat
      else option_map S (GetItemByVersion rest v)
  end.

Record ZigIndexFileEntry : Type := mkFileEntry {
  Tarball : string;
  Shasum : string;
  Size : string
}.

Record ZigIndexEntry : Type := mkEntry {
  EntryVersion : string;      (* field Version, json "version" *)
  Date : string;
  Docs : string;
  StdDocs : string;
  Src : option ZigIndexFileEntry;
  Bootstrap : option ZigIndexFileEntry;
  X86_64_macos : option ZigIndexFileEntry;
  Aarch64_macos : option ZigIndexFileEntry;
  X86_64_linux : option ZigIndexFileEntry;
  Aarch64_linux : option ZigIndexFileEntry;
  Riscv64_linux : option ZigIndexFileEntry;
  Powerpc64le_linux : option ZigIndexFileEntry;
  Powerpc_linux : option ZigIndexFileEntry;
  X86_linux : option ZigIndexFileEntry;
  X86_64_windows : option ZigIndexFileEntry;
  Aarch64_windows : option ZigIndexFileEntry;
  X86_windows : option ZigIndexFileEntry
}.

(** An [os.DirEntry], as far as the program looks at it. *)
Record DirEntry : Type := mkDirEntry {
  Name : string;
  IsDir : bool
}.

(** What a read of the outside world gave: a value or an [error]. *)
Inductive io (A : Type) : Type :=
| Got (a : A)
| Fail (e : error).
Arguments Got {A} a.
Arguments Fail {A} e.

(** ** The host: what the program reads from its environment *)

Section Host.

(** [runtime.GOOS] and [runtime.GOARCH], the directory [os.UserHomeDir]
    returns (the program panics at once when it fails), and [path.Join]
    of Go's standard library. *)
Variable GOOS GOARCH : string.
Variable home : string.
Variable path_Join : list string -> string.

(** [localDirPath]. *)
Definition localDirPath (p : list string) : string :=
  path_Join ([home; ".zig-toolchain"] ++ p)%list.

(** [getHostOs]. *)
Definition getHostOs : res string :=
  if String.eqb GOOS "windows" then Ok GOOS
  else if String.eqb GOOS "darwin" then Ok "macos"
  else if String.eqb GOOS "linux" then Ok GOOS
  else Panic (PanicMsg "Invalid os!").

(** [getHostArch]. *)
Definition getHostArch : res string :=
  if String.eqb GOARCH "386" then Ok "x86"
  else if String.eqb GOARCH "amd64" then Ok "x86-64"
  else if String.eqb GOARCH "arm64" then Ok "aarch64"
  else Panic (PanicMsg "Invalid arch!").

(** [ZigIndexEntry.GetFileEntryForHost]: a pair the nested switches do not
    list falls out of them to the panic. *)
Definition GetFileEntryForHost (z : ZigIndexEntry) : res (option ZigIndexFileEntry) :=
  do os <- getHostOs;
  do arch <- getHostArch;
  let invalid := Panic (PanicMsg "invalid os/arch!") in
  if String.eqb os "macos" then
    if String.eqb arch "aarch64" then Ok (Aarch64_macos z)
    else if String.eqb arch "x86-64" then Ok (X86_64_macos z)
    else invalid
  else if String.eqb os "linux" then
    if String.eqb arch "aarch64" then Ok (Aarch64_linux z)
    else if String.eqb arch "x86-64" then Ok (X86_64_linux z)
    else if String.eqb arch "x86" then Ok (X86_linux z)
    else invalid
  else if String.eqb os "windows" then
    if String.eqb arch "aarch64" then Ok (Aarch64_windows z)
    else if String.eqb arch "x86-64" then Ok (X86_64_windows z)
    else if String.eqb arch "x86" then Ok (X86_windows z)
    else invalid
  else invalid.

(** [localTarballPathFromUrl]. *)
Definition localTarballPathFromUrl (url : string) : res string :=
  let sp := strings.Split url "/" in
  do filename <- index sp (length sp - 1);
  Ok (localDirPath ["tarballs"; filename]).

(** [ParseVersion] followed by [if err != nil { panic(err) }]. *)
Definition ParseVersion_or_panic (s : string) : res Version :=
  do r <- ParseVersion s;
  match r with
  | Parsed v => Ok v
  | Failed e => Panic (PanicErr e)
  end.

(** *** Fold 1: the remote index *)

(** The version string an index record is parsed from. *)
Definition versionString (k : string) (v : ZigIndexEntry) : string :=
  if String.eqb (EntryVersion v) "" then k else EntryVersion v.

(** One round of the loop over [index.Entries] in [AppState.run]. *)
Definition remote_step (items : AppState) (k : string) (v : ZigIndexEntry) : res AppState :=
  do fileEntry <- GetFileEntryForHost v;
  match fileEntry with
  | None => Ok items
  | Some fileEntry =>
      let item := Item_zero in
      let item := if String.eqb (EntryVersion v) "" then item else set_Master true item in
      do version <- ParseVersion_or_panic (versionString k v);
      let item := set_ItemVersion version item in
      let item := set_Indexed true item in
      let item := set_RemoteUrl (Tarball fileEntry) item in
      do lp <- localTarballPathFromUrl (RemoteUrl item);
      let item := set_LocalPath lp item in
      Ok (items ++ [item])%list
  end.

(** The loop itself; the list gives the records in the order in which the
    Go map hands them out, which is any order. *)
Fixpoint loadRemote (entries : list (string * ZigIndexEntry)) (items : AppState) : res AppState :=
  match entries with
  | [] => Ok items
  | (k, v) :: rest => do items' <- remote_step items k v; loadRemote rest items'
  end.

(** *** Fold 2: the tarball directory *)

(** The version tag cut out of a tarball's file name. *)
Definition tarballVersionTag (name : string) : res string :=
  let sp := strings.Split name "." in
  do sp' <- slice_to sp (Z.of_nat (length sp) - 2);
  let name := strings.Join sp' "." in
  let sp := strings.Split name "-" in
  do sp' <- slice_from sp 3;
  Ok (strings.Join sp' "-").

(** One round of the loop over the entries of the tarball directory. *)
Definition tarball_step (items : AppState) (entry : DirEntry) : res AppState :=
  let name := Name entry in
  if String.eqb (path.Ext name) ".xz" then
    do versionTag <- tarballVersionTag name;
    do version <- ParseVersion_or_panic versionTag;
    match GetItemByVersion items version with
    | Some i =>
        Ok (alter (fun item => set_LocalPath (localDirPath ["tarballs"; Name entry])
                                 (set_Downloaded true item)) i items)
    | None =>
        let item := Item_zero in
        let item := set_Downloaded true item in
        let item := set_Indexed false item in
        let item := set_LocalPath (localDirPath ["tarballs"; Name entry]) item in
        let item := set_ItemVersion version item in
        Ok (items ++ [item])%list
    end
  else Ok items.

Fixpoint scanTarballs (dir : list DirEntry) (items : AppState) : res AppState :=
  match dir with
  | [] => Ok items
  | entry :: rest => do items' <- tarball_step items entry; scanTarballs rest items'
  end.

(** *** Fold 3: the current-install directory *)

(** The version tag cut out of the name of an extracted directory. *)
Definition currentVersionTag (name : string) : res string :=
  let sp := strings.Split name "-" in
  do sp' <- slice_from sp 3;
  Ok (strings.Join sp' "-").

(** The loop over the entries of the current-install directory: the first
    directory whose name starts with [zig] is handled and ends the loop. *)
Fixpoint lookForCurrent (dir : list DirEntry) (items : AppState) : res AppState :=
  match dir with
  | [] => Ok items
  | e :: rest =>
      if strings.HasPrefix (Name e) "zig" && IsDir e then
        do versionTag <- currentVersionTag (Name e);
        do version <- ParseVersion_or_panic versionTag;
        match GetItemByVersion items version with
        | Some i => Ok (alter (set_Current true) i items)
        | None => Panic (PanicMsg "current version is not downloaded!")
        end
      else lookForCurrent rest items
  end.

(** *** The three folds of [AppState.run], on a fresh [AppState] *)

Definition or_panic {A : Type} (r : io A) : res A :=
  match r with
  | Got a => Ok a
  | Fail e => Panic (PanicErr e)
  end.

(** [fetched] is what [FetchIndex] returned, [tarballs] and [current] what
    [os.ReadDir] returned for the two directories. *)
Definition reconcile (fetched : io (list (string * ZigIndexEntry)))
                     (tarballs current : io (list DirEntry)) : res AppState :=
  do entries <- or_panic fetched;
  do items <- loadRemote entries [];
  do dir <- or_panic tarballs;
  do items <- scanTarballs dir items;
  do dir <- or_panic current;
  lookForCurrent dir items.

(** [sort.Slice] reorders the slice in place and does nothing else; this
    is all the inventory properties below rely on.  [inv] is an inventory
    the run can hand to the command. *)
Definition Inventory (fetched : io (list (string * ZigIndexEntry)))
                     (tarballs current : io (list DirEntry)) (inv : AppState) : Prop :=
  exists items, reconcile fetched tarballs current = Ok items /\ Permutation items inv.

End Host.

(** ** The home directory as a call *)

(** In [localDirPath home] above, [home] is what [os.UserHomeDir] returned:
    the run calls [ensureDirectories] before anything else, which panics
    when that call fails.  Here are [localDirPath] and
    [localTarballPathFromUrl] with the call itself. *)
Section Env.

Variable UserHomeDir : io string.
Variable path_Join : list string -> string.

(** [localDirPath], from the call of [os.UserHomeDir]. *)
Definition localDirPath_env (p : list string) : res string :=
  match UserHomeDir with
  | Fail err => Panic (PanicErr err)
  | Got home => Ok (path_Join ([home; ".zig-toolchain"] ++ p)%list)
  end.

(** [localTarballPathFromUrl], from the call of [os.UserHomeDir]. *)
Definition localTarballPathFromUrl_env (url : string) : res string :=
  let sp := strings.Split url "/" in
  do filename <- index sp (length sp - 1);
  localDirPath_env ["tarballs"; filename].

End Env.

(** ** The download command *)

Section Download.

(** What fetching [RemoteUrl] and writing the bytes to [LocalPath] came
    to: [http.Get], [io.ReadAll], [os.Create] and [file.Write], the first
    error of which is returned. *)
Variable fetch_and_store : string -> string -> option error.

(** The line feed of a Go string literal. *)
Definition nl : string := String "010" "".

(** A command prints and ends in a [res]. *)
Definition cmd (A : Type) : Type := list string * res A.

(** [AppState.downloadTarball]. *)
Definition downloadTarball (item : Item) : list string * option error :=
  let out := ["Downlading tarball " ++ RemoteUrl item ++ "..."] in
  match fetch_and_store (RemoteUrl item) (LocalPath item) with
  | Some err => (out, Some err)
  | None => (List.app out ["Done!" ++ nl], None)
  end.

(** [AppState.commandDownloadItem]; the result is the item behind the
    pointer when the call returns. *)
Definition commandDownloadItem (item : Item) : cmd Item :=
  if Downloaded item then
    (["Tarball already downloaded!" ++ nl], Ok item)
  else if negb (Indexed item) then
    (["Item not indexed!"], Exit 1)
  else
    match downloadTarball item with
    | (out, Some err) => (out, Panic (PanicErr err))
    | (out, None) => (out, Ok (set_Downloaded true item))
    end.

End Download.

(** ** Shapes of strings *)

(** [has_byte c s]: the byte [c] occurs in [s]. *)
Fixpoint has_byte (c : ascii) (s : string) : bool :=
  match s with
  | EmptyString => false
  | String x r => Ascii.eqb x c || has_byte c r
  end.

(** [all_digits s]: every byte of [s] is one of [0] to [9]. *)
Fixpoint all_digits (s : string) : bool :=
  match s with
  | EmptyString => true
  | String x r => strconv.is_digit x && all_digits r
  end.

(** The number that a string of decimal digits writes, read after [n]. *)
Fixpoint digits_value (s : string) (n : Z) : Z :=
  match s with
  | EmptyString => n
  | String x r => digits_value r (n * 10 + (Z.of_N (N_of_ascii x) - 48))
  end.

(** A decimal numeral as one writes a number: [0], or digits of which the
    first is not [0]; no sign. *)
Definition canonical (s : string) : bool :=
  match s with
  | EmptyString => false
  | String c r =>
      if Ascii.eqb c "0" then (match r with EmptyString => true | _ => false end)
      else strconv.is_digit c && all_digits r
  end.

(** A numeral of a number up to 2^31-1. *)
Definition numeral (s : string) : Prop :=
  canonical s = true /\ digits_value s 0 < 2 ^ 31.

(** The two grammars of a version, over the text of their components:
    [MAJOR.MINOR.PATCH] and [MAJOR.MINOR.PATCH-dev.BUILD+COMMIT]. *)
Definition release_text (major minor patch : string) : string :=
  major ++ "." ++ minor ++ "." ++ patch.

Definition dev_text (major minor patch build commit : string) : string :=
  major ++ "." ++ minor ++ "." ++ patch ++ "-dev." ++ build ++ "+" ++ commit.

(** The range of a component that [strconv.ParseInt(_, 10, 32)] accepts
    and that no hyphen precedes. *)
Definition int31 (n : Z) : Prop := 0 <= n < 2 ^ 31.

(** The release form [MAJOR.MINOR.PATCH] and the dev form
    [MAJOR.MINOR.PATCH-dev.BUILD+COMMIT] of a version, as text. *)
Definition release_form (M m p : Z) : string := Sprintf_triple M m p.

Definition dev_form (M m p B : Z) (commit : string) : string :=
  Sprintf_triple M m p ++ "-dev." ++ strconv.FormatInt B ++ "+" ++ commit.

(** The name of a tarball by the naming convention, for an OS tag, an
    architecture tag and the text of a version. *)
Definition tarball_name (os arch vtext : string) : string :=
  ("zig-" ++ os ++ "-" ++ arch ++ "-" ++ vtext) ++ ".tar.xz".

(** The text of a version in a file name: the release form, or the dev form
    with the commit hash. *)
Definition version_text (v : Version) : string :=
  if Dev v then dev_form (Major v) (Minor v) (Patch v) (Build v) (Commit v)
  else release_form (Major v) (Minor v) (Patch v).

(** The numbers of a version are in the range the parser reads. *)
Definition in_range (v : Version) : Prop :=
  int31 (Major v) /\ int31 (Minor v) /\ int31 (Patch v) /\ int31 (Build v).

(** ** Tarballs of a version *)

(** [names_version v d]: the directory entry [d] is a tarball whose name
    carries a version [equal] to [v]. *)
Definition names_version (v : Version) (d : DirEntry) : Prop :=
  path.Ext (Name d) = ".xz"
  /\ exists tag v', tarballVersionTag (Name d) = Ok tag
                   /\ ParseVersion tag = Ok (Parsed v')
                   /\ equal v v' = true.

(** [archived home join dir v item]: the item is downloaded and its local
    path is the path of a tarball of [v] found in [dir]. *)
Definition archived (home : string) (path_Join : list string -> string)
           (dir : list DirEntry) (v : Version) (item : Item) : Prop :=
  Downloaded item = true
  /\ exists d, In d dir /\ names_version v d
               /\ LocalPath item = localDirPath home path_Join ["tarballs"; Name d].

(** ** Paths the activation uses *)

Section HostPaths.

Variable GOOS GOARCH home : string.
Variable path_Join : list string -> string.

(** [homeDirPath]. *)
Definition homeDirPath (p : list string) : string := path_Join ([home] ++ p)%list.

(** [zigBinPath]. *)
Definition zigBinPath : string := homeDirPath [".local"; "bin"; "zig"].

(** The [fname] of [extractedDirForVersion]: the name of the directory a
    version is expected to be extracted to. *)
Definition extractedDirName (v : Version) : res string :=
  do os <- getHostOs GOOS;
  do arch <- getHostArch GOARCH;
  let fname := "zig-" ++ os ++ "-" ++ arch ++ "-" ++ Sprintf_triple (Major v) (Minor v) (Patch v) in
  Ok (if Dev v
      then fname ++ "-dev." ++ strconv.FormatInt (Build v) ++ "+" ++ Commit v
      else fname).

(** [extractedDirForVersion]. *)
Definition extractedDirForVersion (v : Version) : res string :=
  do fname <- extractedDirName v;
  Ok (localDirPath home path_Join ["current"; fname]).

End HostPaths.

(** ** The commands that pick an item *)

(** The loop of [commandDownloadMaster] and [commandActivateMaster]: the
    index of the first item with [Master] set. *)
Fixpoint find_master (items : AppState) : option nat :=
  match items with
  | [] => None
  | item :: rest =>
      if Master item then Some 0%nat else option_map S (find_master rest)
  end.

(** [AppState.GetCurrentActiveItem]: a copy of the first item with
    [Current] set. *)
Fixpoint GetCurrentActiveItem (items : AppState) : option Item :=
  match items with
  | [] => None
  | item :: rest => if Current item then Some item else GetCurrentActiveItem rest
  end.

Section Select.

Variable fetch_and_store : string -> string -> option error.

(** A command run on [&app.Items[i]]: what it leaves behind the pointer is
    written back to the slice. *)
Definition on_item (i : nat) (items : AppState) (f : Item -> cmd Item) : cmd AppState :=
  match items !! i with
  | Some item =>
      let '(out, r) := f item in
      (out, do item' <- r; Ok (<[i := item']> items))
  | None => ([], Panic (IndexOutOfRange (Z.of_nat i) (Z.of_nat (length items))))
  end.

(** [AppState.commandDownloadMaster]. *)
Definition commandDownloadMaster (items : AppState) : cmd AppState :=
  match find_master items with
  | Some i => on_item i items (commandDownloadItem fetch_and_store)
  | None => ([], Panic (PanicMsg "Master version not found!"))
  end.

(** [AppState.commandDownloadVersion]. *)
Definition commandDownloadVersion (items : AppState) (v : Version) : cmd AppState :=
  match GetItemByVersion items v with
  | Some i => on_item i items (commandDownloadItem fetch_and_store)
  | None => (["Invalid version!"], Exit 1)
  end.

End Select.

(** ** Activation *)

(** What a command does to the outside world, in the order it does it. *)
Inductive effect : Type :=
| EPrint (s : string)                    (* fmt.Printf *)
| EFetch (url file : string)             (* the transport of downloadTarball *)
| ERemoveAll (p : string)                (* os.RemoveAll *)
| EMkdirAll (p : string)                 (* os.MkdirAll *)
| ETar (archive dir : string)            (* tar -xf archive, run in dir *)
| ELstat (p : string)                    (* os.Lstat *)
| ERemove (p : string)                   (* os.Remove *)
| ESymlink (target link : string).       (* os.Symlink *)

(** A command with its effects. *)
Definition act (A : Type) : Type := list effect * res A.

Definition act_bind {A B : Type} (m : act A) (k : A -> act B) : act B :=
  match m with
  | (t, Ok a) => let '(t', r) := k a in ((t ++ t')%list, r)
  | (t, Panic p) => (t, Panic p)
  | (t, Exit c) => (t, Exit c)
  end.

Notation "'run' x <- m ; k" := (act_bind m (fun x => k))
  (at level 10, x name, m at level 100, k at level 200).

Section Activation.

Variable GOOS GOARCH home : string.
Variable path_Join : list string -> string.

(** The outside world: each of these is asked at most once in a command. *)
Variable fetch_and_store : string -> string -> option error.
Variable mkdir_all : string -> option error.
Variable run_tar : string -> string -> option string.  (* the output, on failure *)
Variable lstat : string -> option error.
Variable remove : string -> option error.
Variable symlink : string -> string -> option error.

(** [ensureDirectories]: [err] is assigned twice and read once. *)
Definition ensureDirectories : act unit :=
  let tarballs := localDirPath home path_Join ["tarballs"] in
  let current := localDirPath home path_Join ["current"] in
  ([EMkdirAll tarballs; EMkdirAll current],
   match mkdir_all current with
   | Some err => Panic (PanicErr err)
   | None => Ok tt
   end).

(** [commandDownloadItem] with its effects: the prints, and the transport
    when the command gets to it. *)
Definition downloadItem_act (item : Item) : act Item :=
  if Downloaded item then
    ([EPrint ("Tarball already downloaded!" ++ nl)], Ok item)
  else if negb (Indexed item) then
    ([EPrint "Item not indexed!"], Exit 1)
  else
    let t := [EPrint ("Downlading tarball " ++ RemoteUrl item ++ "...");
              EFetch (RemoteUrl item) (LocalPath item)] in
    match fetch_and_store (RemoteUrl item) (LocalPath item) with
    | Some err => (t, Panic (PanicErr err))
    | None => ((t ++ [EPrint ("Done!" ++ nl)])%list, Ok (set_Downloaded true item))
    end.

(** [AppState.commandActivateItem]; the result is the item behind the
    pointer when the call returns. *)
Definition commandActivateItem (item : Item) : act Item :=
  if Current item then ([EPrint "Version is already active!"], Exit 0)
  else
    run item <- (if negb (Downloaded item) then downloadItem_act item else ([], Ok item));
    let current := localDirPath home path_Join ["current"] in
    let bin := zigBinPath home path_Join in
    run _ <- ([ERemoveAll current], Ok tt);
    run _ <- ensureDirectories;
    run _ <- ([EPrint "Extracting..."; ETar (LocalPath item) current],
              match run_tar (LocalPath item) current with
              | Some out => Panic (PanicMsg out)
              | None => Ok tt
              end);
    run _ <- ([EPrint ("Done!" ++ nl); EPrint "Creating symlink..."; ELstat bin], Ok tt);
    run _ <- (match lstat bin with
              | None =>
                  ([ERemove bin],
                   match remove bin with
                   | Some err => Panic (PanicErr err)
                   | None => Ok tt
                   end)
              | Some _ => ([], Ok tt)
              end);
    run dir <- ([], extractedDirForVersion GOOS GOARCH home path_Join (ItemVersion item));
    let target := path_Join [dir; "zig"] in
    run _ <- ([ESymlink target bin],
              match symlink target bin with
              | Some err => Panic (PanicErr err)
              | None => Ok tt
              end);
    ([EPrint ("Done!" ++ nl)], Ok item).

(** [AppState.commandActivateVersion], from the lookup to the item. *)
Definition commandActivateVersion (items : AppState) (v : Version) : act AppState :=
  match GetItemByVersion items v with
  | None => ([EPrint ("Version not found!" ++ nl)], Exit 1)
  | Some i =>
      match items !! i with
      | Some item => run item' <- commandActivateItem item; ([], Ok (<[i := item']> items))
      | None => ([], Panic (IndexOutOfRange (Z.of_nat i) (Z.of_nat (length items))))
      end
  end.

(** [AppState.commandActivateMaster]. *)
Definition commandActivateMaster (items : AppState) : act AppState :=
  match find_master items with
  | None => ([EPrint ("Version not found!" ++ nl)], Exit 1)
  | Some i =>
      match items !! i with
      | Some item => run item' <- commandActivateItem item; ([], Ok (<[i := item']> items))
      | None => ([], Panic (IndexOutOfRange (Z.of_nat i) (Z.of_nat (length items))))
      end
  end.

End Activation.

(** ** Shapes of inventories *)

(** No two positions hold [equal] versions. *)
Definition distinct_versions (items : AppState) : Prop :=
  forall (i j : nat) (a b : Item),
    items !! i = Some a -> items !! j = Some b ->
    equal (ItemVersion a) (ItemVersion b) = true -> i = j.

(** What every item of a reconciled state looks like: it was listed or
    found on disk; only listed items are master; an item found on disk only
    has no URL. *)
Definition item_wf (item : Item) : Prop :=
  (Indexed item = true \/ Downloaded item = true)
  /\ (Master item = true -> Indexed item = true)
  /\ (Indexed item = false -> RemoteUrl item = "").

(** The pairs of [runtime.GOOS] and [runtime.GOARCH] that the switches of
    [GetFileEntryForHost] list. *)
Definition host_supported (GOOS GOARCH : string) : bool :=
  (String.eqb GOOS "darwin" && (String.eqb GOARCH "arm64" || String.eqb GOARCH "amd64"))
  || ((String.eqb GOOS "linux" || String.eqb GOOS "windows")
      && (String.eqb GOARCH "arm64" || String.eqb GOARCH "amd64" || String.eqb GOARCH "386")).

(** The test of the loop of the current-install fold. *)
Definition is_zig_dir (e : DirEntry) : bool :=
  strings.HasPrefix (Name e) "zig" && IsDir e.

(** What a command printed, out of its effects. *)
Fixpoint prints (t : list effect) : list string :=
  match t with
  | [] => []
  | EPrint s :: rest => s :: prints rest
  | _ :: rest => prints rest
  end.

(** An index record has a descriptor for the host. *)
Definition has_descriptor (GOOS GOARCH : string) (e : ZigIndexEntry) : bool :=
  match GetFileEntryForHost GOOS GOARCH e with
  | Ok (Some _) => true
  | _ => false
  end.

(** The item of an index record, as the remote fold makes it. *)
Definition item_of_record (GOOS GOARCH : string) (r : string * ZigIndexEntry)
           (item : Item) : Prop :=
  ParseVersion (versionString (fst r) (snd r)) = Ok (Parsed (ItemVersion item))
  /\ (exists fe, GetFileEntryForHost GOOS GOARCH (snd r) = Ok (Some fe)
                 /\ RemoteUrl item = Tarball fe)
  /\ Master item = negb (String.eqb (EntryVersion (snd r)) "")
  /\ Indexed item = true /\ Downloaded item = false /\ Current item = false.

(** Two index records that both give an item, of [equal] versions. *)
Definition same_version (GOOS GOARCH : string) (r1 r2 : string * ZigIndexEntry) : Prop :=
  has_descriptor GOOS GOARCH (snd r1) = true
  /\ has_descriptor GOOS GOARCH (snd r2) = true
  /\ exists v1 v2,
       ParseVersion (versionString (fst r1) (snd r1)) = Ok (Parsed v1)
       /\ ParseVersion (versionString (fst r2) (snd r2)) = Ok (Parsed v2)
       /\ equal v1 v2 = true.

(** No two records of the index give items of [equal] versions. *)
Definition index_distinct (GOOS GOARCH : string)
           (entries : list (string * ZigIndexEntry)) : Prop :=
  ForallOrdPairs (fun r1 r2 => ~ same_version GOOS GOARCH r1 r2) entries.

(** An effect on the file system below the tool's directory or on the link. *)
Definition touches_disk (e : effect) : bool :=
  match e with
  | EPrint _ => false
  | _ => true
  end.

(** ** Sample data for the concrete runs below *)

(** An index record that has a descriptor for x86_64 Linux only. *)
Definition linux_entry (version tarball : string) : ZigIndexEntry :=
  mkEntry version "" "" "" None None None None
          (Some (mkFileEntry tarball "" "")) None None None None None None None None.

Definition url_0_10_1 : string :=
  "https://ziglang.org/download/0.10.1/zig-linux-x86_64-0.10.1.tar.xz".

(** A URL whose last segment is not the name the tarball has on disk. *)
Definition url_mirror : string := "https://mirror.example/zig/zig-0.10.1.tar.xz".

(** A second record of the release 0.10.1, under a channel name. *)
Definition url_stable : string := "https://ziglang.org/download/stable.tar.xz".

Definition url_master : string :=
  "https://ziglang.org/builds/zig-linux-x86_64-0.12.0-dev.100+abcdef12.tar.xz".

(** A join of clean path elements, which is what [path.Join] does to them. *)
Definition join_slash (elems : list string) : string := strings.Join elems "/".

(** A transport that always succeeds. *)
Definition fetch_ok (url file : string) : option error := None.

(** * Properties *)

(** Splits conjunctions, and only them. *)
Ltac splits := repeat match goal with |- _ /\ _ => split end.

(** ** The parser and the display on the two forms *)

Example ParseVersion_release :
  ParseVersion "0.10.1" = Ok (Parsed (mkVersion 0 10 1 false 0 "")).
Proof. reflexivity. Qed.

Example ParseVersion_dev :
  ParseVersion "0.11.0-dev.1234+abc123de"
  = Ok (Parsed (mkVersion 0 11 0 true 1234 "abc123de")).
Proof. reflexivity. Qed.

Example Version_String_dev :
  Version_String (mkVersion 0 11 0 true 1234 "abc123de") = "0.11.0-dev-1234".
Proof. reflexivity. Qed.

(** ** The order and the equality of versions *)

(** Case analysis on every integer test met in the goal or in a hypothesis. *)
Ltac cmp_cases :=
  repeat match goal with
  | |- context [?x =? ?y] => destruct (Z.eqb_spec x y)
  | |- context [?x <? ?y] => destruct (Z.ltb_spec x y)
  | H : context [?x =? ?y] |- _ => destruct (Z.eqb_spec x y)
  | H : context [?x <? ?y] |- _ => destruct (Z.ltb_spec x y)
  end.

Ltac version_cases :=
  unfold lessThan, equal; simpl;
  repeat match goal with
  | |- context [Dev ?v] => destruct (Dev v)
  | H : context [Dev ?v] |- _ => destruct (Dev v)
  end; simpl in *; cmp_cases; simpl in *; subst; try lia; try congruence; auto.

Lemma lessThan_irrefl (a : Version) : lessThan a a = false.
Proof. version_cases. Qed.

Lemma lessThan_asym (a b : Version) : lessThan a b = true -> lessThan b a = false.
Proof. version_cases. Qed.

Lemma equal_not_lessThan (a b : Version) : equal a b = true -> lessThan a b = false.
Proof. version_cases. Qed.

Lemma lessThan_trans (a b c : Version) :
  lessThan a b = true -> lessThan b c = true -> lessThan a c = true.
Proof. version_cases. Qed.

Lemma equal_refl (a : Version) : equal a a = true.
Proof. version_cases. Qed.

Lemma equal_sym (a b : Version) : equal a b = equal b a.
Proof. version_cases. Qed.

Lemma equal_trans (a b c : Version) :
  equal a b = true -> equal b c = true -> equal a c = true.
Proof. version_cases. Qed.

(** [equal] relates the versions that agree on the fields it reads, so a
    lookup by one of two [equal] versions is a lookup by the other. *)
Lemma equal_congr (a b c : Version) :
  equal a b = true -> equal c a = equal c b.
Proof. version_cases. Qed.

(** C6. The comparison is a total order: of [lessThan a b], [equal a b] and
    [lessThan b a] exactly one holds, and [lessThan] is transitive. *)
Theorem lessThan_total_order (a b c : Version) :
  ((lessThan a b = true /\ equal a b = false /\ lessThan b a = false)
   \/ (lessThan a b = false /\ equal a b = true /\ lessThan b a = false)
   \/ (lessThan a b = false /\ equal a b = false /\ lessThan b a = true))
  /\ (lessThan a b = true -> lessThan b c = true -> lessThan a c = true).
Proof.
  split.
  - version_cases; tauto.
  - apply lessThan_trans.
Qed.

Lemma lessThan_total_order_witness :
  lessThan (mkVersion 0 9 1 false 0 "") (mkVersion 0 10 0 true 7 "aaa") = true
  /\ lessThan (mkVersion 0 10 0 true 7 "aaa") (mkVersion 0 10 0 true 8 "bbb") = true
  /\ lessThan (mkVersion 0 9 1 false 0 "") (mkVersion 0 10 0 true 8 "bbb") = true.
Proof.
  split; [reflexivity | split; [reflexivity |]].
  apply (proj2 (lessThan_total_order (mkVersion 0 9 1 false 0 "")
                  (mkVersion 0 10 0 true 7 "aaa") (mkVersion 0 10 0 true 8 "bbb")));
    reflexivity.
Defined.

(** C7, as the code has it: with the same (major, minor, patch), the
    release is strictly less than every dev version, and no dev version is
    less than the release. *)
Theorem release_lessThan_dev (M m p b b' : Z) (c c' : string) :
  lessThan (mkVersion M m p false b' c') (mkVersion M m p true b c) = true
  /\ lessThan (mkVersion M m p true b c) (mkVersion M m p false b' c') = false.
Proof.
  unfold lessThan; simpl. rewrite !Z.eqb_refl. split; reflexivity.
Qed.

(** C7 as stated fails: the dev version 0.11.0-dev.1234 is not less than
    the release 0.11.0. *)
Lemma dev_not_lessThan_release :
  lessThan (mkVersion 0 11 0 true 1234 "abc123de") (mkVersion 0 11 0 false 0 "") <> true.
Proof. discriminate. Qed.

(** C8. Equality does not read the commit hash: two dev versions with the
    same major, minor, patch and build number are equal whatever their
    hashes, as are the two versions of the specification's example. *)
Theorem equal_ignores_commit :
  (forall (M m p b : Z) (c1 c2 : string),
      equal (mkVersion M m p true b c1) (mkVersion M m p true b c2) = true)
  /\ equal (mkVersion 1 2 3 true 7 "aaa") (mkVersion 1 2 3 true 7 "bbb") = true.
Proof.
  split; [| reflexivity].
  intros. unfold equal; simpl. rewrite !Z.eqb_refl. reflexivity.
Qed.

(** ** The parser on malformed input *)

(** C3 at its failing inputs: a malformed major segment is read as 0 and a
    version is returned; a dev tag without its commit part makes the parser
    panic; a malformed patch segment and a wrong segment count do give the
    error. *)
Theorem ParseVersion_malformed :
  ParseVersion "x.1.2" = Ok (Parsed (mkVersion 0 1 2 false 0 ""))
  /\ ParseVersion "1.y.2" = Ok (Parsed (mkVersion 1 0 2 false 0 ""))
  /\ ParseVersion "0.11.0-dev.1234" = Panic (IndexOutOfRange 1 1)
  /\ ParseVersion "1.2.z" = Ok (Failed (ErrSyntax "ParseInt" "z"))
  /\ ParseVersion "1.2" = Ok (Failed (ErrFailedToParse "1.2")).
Proof. repeat split. Qed.

(** C10 as stated fails: the tail segment of "1.2-dev" has no dot, and the
    parser returns its error without a panic. *)
Lemma no_dot_tail_returns_error :
  ParseVersion "1.2-dev" = Ok (Failed (ErrFailedToParse "1.2-dev"))
  /\ has_byte "." "dev" = false.
Proof. split; reflexivity. Qed.

(** ** The download command *)

(** C4, as the code has it: an item already downloaded is left as it is,
    indexed or not, and the command returns; an item neither downloaded nor
    indexed makes the command exit with "Item not indexed!"; an item indexed
    and not downloaded is fetched, and the command returns it downloaded or
    panics with the error of the transport.  So the command exits exactly
    when the item is neither downloaded nor indexed. *)
Theorem commandDownloadItem_guards (fetch : string -> string -> option error) (item : Item) :
  (Downloaded item = true ->
   commandDownloadItem fetch item = (["Tarball already downloaded!" ++ nl], Ok item))
  /\ (Downloaded item = false -> Indexed item = false ->
      commandDownloadItem fetch item = (["Item not indexed!"], Exit 1))
  /\ (Downloaded item = false -> Indexed item = true ->
      commandDownloadItem fetch item
      = match fetch (RemoteUrl item) (LocalPath item) with
        | Some err =>
            (["Downlading tarball " ++ RemoteUrl item ++ "..."], Panic (PanicErr err))
        | None =>
            (["Downlading tarball " ++ RemoteUrl item ++ "..."; "Done!" ++ nl],
             Ok (set_Downloaded true item))
        end)
  /\ ((exists code, snd (commandDownloadItem fetch item) = Exit code)
      <-> Downloaded item = false /\ Indexed item = false).
Proof.
  unfold commandDownloadItem, downloadTarball. splits.
  - intros ->. reflexivity.
  - intros -> ->. reflexivity.
  - intros -> ->. cbn [negb].
    destruct (fetch (RemoteUrl item) (LocalPath item)); reflexivity.
  - split.
    + intros [code H]. destruct (Downloaded item); [discriminate |].
      destruct (Indexed item); cbn [negb] in H; [| auto].
      destruct (fetch (RemoteUrl item) (LocalPath item)); discriminate.
    + intros [-> ->]. exists 1. reflexivity.
Qed.

Lemma commandDownloadItem_guards_witness :
  commandDownloadItem fetch_ok (mkItem (mkVersion 0 9 1 false 0 "") true false false false
                                  "/home/u/.zig-toolchain/tarballs/zig-linux-x86_64-0.9.1.tar.xz" "")
  = (["Tarball already downloaded!" ++ nl],
     Ok (mkItem (mkVersion 0 9 1 false 0 "") true false false false
           "/home/u/.zig-toolchain/tarballs/zig-linux-x86_64-0.9.1.tar.xz" ""))
  /\ commandDownloadItem fetch_ok (mkItem (mkVersion 0 9 1 false 0 "") false false false false "" "")
     = (["Item not indexed!"], Exit 1)
  /\ commandDownloadItem fetch_ok
       (mkItem (mkVersion 0 10 1 false 0 "") false false true false "/t/z.tar.xz" url_0_10_1)
     = (["Downlading tarball " ++ url_0_10_1 ++ "..."; "Done!" ++ nl],
        Ok (mkItem (mkVersion 0 10 1 false 0 "") true false true false "/t/z.tar.xz" url_0_10_1))
  /\ exists code,
       snd (commandDownloadItem fetch_ok
              (mkItem (mkVersion 0 9 1 false 0 "") false false false false "" ""))
       = Exit code.
Proof.
  splits.
  - apply (proj1 (commandDownloadItem_guards fetch_ok _)). reflexivity.
  - apply (proj1 (proj2 (commandDownloadItem_guards fetch_ok _))); reflexivity.
  - apply (proj1 (proj2 (proj2 (commandDownloadItem_guards fetch_ok
             (mkItem (mkVersion 0 10 1 false 0 "") false false true false
                "/t/z.tar.xz" url_0_10_1))))); reflexivity.
  - apply (proj2 (proj2 (proj2 (commandDownloadItem_guards fetch_ok _)))).
    split; reflexivity.
Defined.

(** C4 as stated fails: the download command on a local-only item
    (downloaded, not indexed) returns and does not exit. *)
Lemma download_local_only_returns :
  let item := mkItem (mkVersion 0 9 1 false 0 "") true false false false
                "/home/u/.zig-toolchain/tarballs/zig-linux-x86_64-0.9.1.tar.xz" "" in
  Indexed item = false /\ Downloaded item = true
  /\ snd (commandDownloadItem fetch_ok item) = Ok item
  /\ snd (commandDownloadItem fetch_ok item) <> Exit 1.
Proof. cbv zeta. repeat split. discriminate. Qed.

(** ** Strings: appending and splitting *)

Lemma append_nil_r (s : string) : s ++ "" = s.
Proof. induction s as [| c s IH]; simpl; [reflexivity | now rewrite IH]. Qed.

Lemma append_assoc (a b c : string) : (a ++ b) ++ c = a ++ (b ++ c).
Proof. induction a as [| x a IH]; simpl; [reflexivity | now rewrite IH]. Qed.

Lemma has_byte_app (c : ascii) (a b : string) :
  has_byte c (a ++ b) = has_byte c a || has_byte c b.
Proof.
  induction a as [| x a IH]; simpl; [reflexivity |].
  rewrite IH. now rewrite orb_assoc.
Qed.

Lemma all_digits_app (a b : string) :
  all_digits (a ++ b) = all_digits a && all_digits b.
Proof.
  induction a as [| x a IH]; simpl; [reflexivity |].
  rewrite IH. now rewrite andb_assoc.
Qed.

(** A byte that is not a digit does not occur in a string of digits. *)
Lemma all_digits_no_byte (c : ascii) (s : string) :
  strconv.is_digit c = false -> all_digits s = true -> has_byte c s = false.
Proof.
  intros Hc. induction s as [| x s IH]; simpl; [reflexivity |].
  intros [Hx Hs]%andb_prop.
  rewrite (IH Hs), orb_false_r.
  destruct (Ascii.eqb_spec x c) as [-> |]; [congruence | reflexivity].
Qed.

Lemma Split_nonempty (s : string) (sep : ascii) :
  exists h t, strings.Split s sep = h :: t.
Proof.
  destruct s as [| c r]; simpl; [eauto |].
  destruct (Ascii.eqb c sep); [eauto |].
  destruct (strings.Split r sep); eauto.
Qed.

(** Without the separator there is one field, the string itself. *)
Lemma Split_no_sep (s : string) (sep : ascii) :
  has_byte sep s = false -> strings.Split s sep = [s].
Proof.
  induction s as [| c r IH]; simpl; [reflexivity |].
  intros [Hc Hr]%orb_false_elim. rewrite Hc, (IH Hr). reflexivity.
Qed.

Lemma append_plus (a x : string) : (a ++ "+") ++ x = a ++ String "+" x.
Proof. now rewrite append_assoc. Qed.

(** A prefix free of the separator goes to the first field. *)
Lemma Split_app_hd (a x h : string) (t : list string) (sep : ascii) :
  has_byte sep a = false ->
  strings.Split x sep = h :: t ->
  strings.Split (a ++ x) sep = (a ++ h) :: t.
Proof.
  intros Ha Hx. induction a as [| c r IH]; simpl in *; [exact Hx |].
  apply orb_false_elim in Ha as [Hc Hr].
  rewrite Hc, (IH Hr). reflexivity.
Qed.

(** A prefix free of the separator and followed by it is the first field. *)
Lemma Split_app_sep (a b : string) (sep : ascii) :
  has_byte sep a = false ->
  strings.Split (a ++ String sep b) sep = a :: strings.Split b sep.
Proof.
  intros Ha.
  rewrite (Split_app_hd a (String sep b) "" (strings.Split b sep) sep Ha).
  - now rewrite append_nil_r.
  - simpl. now rewrite Ascii.eqb_refl.
Qed.

(** ** Decimal numerals: [FormatInt] and [ParseInt] *)

Lemma digit_char_value (d : Z) :
  0 <= d < 10 -> Z.of_N (N_of_ascii (strconv.digit_char d)) - 48 = d.
Proof.
  intros H.
  assert (d = 0 \/ d = 1 \/ d = 2 \/ d = 3 \/ d = 4 \/ d = 5 \/ d = 6 \/ d = 7
          \/ d = 8 \/ d = 9) as Hd by lia.
  repeat (destruct Hd as [-> | Hd]; [reflexivity |]). subst d. reflexivity.
Qed.

Lemma digit_char_is_digit (d : Z) :
  0 <= d < 10 -> strconv.is_digit (strconv.digit_char d) = true.
Proof.
  intros H.
  assert (d = 0 \/ d = 1 \/ d = 2 \/ d = 3 \/ d = 4 \/ d = 5 \/ d = 6 \/ d = 7
          \/ d = 8 \/ d = 9) as Hd by lia.
  repeat (destruct Hd as [-> | Hd]; [reflexivity |]). subst d. reflexivity.
Qed.

Lemma format_loop_acc (fuel : nat) (u : Z) (acc : string) :
  strconv.format_loop fuel u acc = strconv.format_loop fuel u "" ++ acc.
Proof.
  revert u acc. induction fuel as [| f IH]; intros u acc; simpl; [reflexivity |].
  destruct (u / 10 =? 0); [reflexivity |].
  rewrite (IH _ (String _ acc)), (IH _ (String _ "")), append_assoc. reflexivity.
Qed.

Lemma format_loop_digits (fuel : nat) (u : Z) (acc : string) :
  0 <= u -> all_digits acc = true ->
  all_digits (strconv.format_loop fuel u acc) = true.
Proof.
  revert u acc. induction fuel as [| f IH]; intros u acc Hu Hacc; simpl; [exact Hacc |].
  assert (all_digits (String (strconv.digit_char (u mod 10)) acc) = true) as H.
  { simpl. rewrite Hacc, digit_char_is_digit; [reflexivity |].
    apply Z.mod_pos_bound; lia. }
  destruct (u / 10 =? 0); [exact H |].
  apply IH; [apply Z.div_pos; lia | exact H].
Qed.

Lemma format_loop_nonempty (fuel : nat) (u : Z) (c : ascii) (acc : string) :
  exists c' r, strconv.format_loop fuel u (String c acc) = String c' r.
Proof.
  revert u c acc. induction fuel as [| f IH]; intros u c acc; simpl; [eauto |].
  destruct (u / 10 =? 0); [eauto | apply IH].
Qed.

(** [FormatInt] of a natural number: a first digit and more digits. *)
Lemma FormatInt_shape (n : Z) :
  0 <= n ->
  exists c r, strconv.FormatInt n = String c r
              /\ strconv.is_digit c = true /\ all_digits r = true.
Proof.
  intros Hn. unfold strconv.FormatInt.
  destruct (Z.ltb_spec n 0) as [| _]; [lia |].
  pose proof (format_loop_digits 20 n "" Hn eq_refl) as Hd.
  change (strconv.format_loop 20 n "") with
    (let acc' := String (strconv.digit_char (n mod 10)) "" in
     if n / 10 =? 0 then acc' else strconv.format_loop 19 (n / 10) acc') in *.
  cbv zeta in *.
  destruct (n / 10 =? 0).
  - simpl in Hd. apply andb_prop in Hd as [H1 H2]. eauto.
  - destruct (format_loop_nonempty 19 (n / 10) (strconv.digit_char (n mod 10)) "")
      as (c & r & E).
    rewrite E in *. simpl in Hd. apply andb_prop in Hd as [H1 H2]. eauto.
Qed.

Lemma FormatInt_digits (n : Z) : 0 <= n -> all_digits (strconv.FormatInt n) = true.
Proof.
  intros Hn. destruct (FormatInt_shape n Hn) as (c & r & -> & Hc & Hr).
  simpl. now rewrite Hc, Hr.
Qed.

(** The parsing loop goes through an appended string in two legs. *)
Lemma ParseUint_loop_app (a b : string) (n : Z) :
  strconv.ParseUint_loop (a ++ b) n
  = match strconv.ParseUint_loop a n with
    | (n', None) => strconv.ParseUint_loop b n'
    | (n', Some e) => (n', Some e)
    end.
Proof.
  revert n. induction a as [| c r IH]; intros n; [reflexivity |].
  cbn [append strconv.ParseUint_loop].
  destruct (strconv.is_digit c); [| reflexivity].
  destruct (_ <=? n); [reflexivity |].
  destruct (_ || _); [reflexivity |].
  apply IH.
Qed.

(** One digit more, while the value fits 32 bits. *)
Lemma ParseUint_loop_digit (d n : Z) :
  0 <= d < 10 -> 0 <= n -> n * 10 + d < 2 ^ 32 ->
  strconv.ParseUint_loop (String (strconv.digit_char d) "") n = (n * 10 + d, None).
Proof.
  intros Hd Hn Hfit. cbn [strconv.ParseUint_loop].
  rewrite (digit_char_is_digit d Hd), (digit_char_value d Hd).
  unfold strconv.maxUint64.
  destruct (Z.leb_spec ((2 ^ 64 - 1) / 10 + 1) n) as [Hc | _].
  { change ((2 ^ 64 - 1) / 10 + 1) with 1844674407370955162 in Hc. lia. }
  rewrite (Z.mod_small (n * 10)) by lia.
  rewrite (Z.mod_small (n * 10 + d)) by lia.
  destruct (Z.ltb_spec (n * 10 + d) (n * 10)); [lia |].
  destruct (Z.ltb_spec (2 ^ 32 - 1) (n * 10 + d)); [lia |].
  reflexivity.
Qed.

(** Parsing what [format_loop] printed gives the number back. *)
Lemma ParseUint_loop_format (fuel : nat) (n : Z) :
  0 <= n < 2 ^ 32 -> n < 10 ^ Z.of_nat fuel ->
  strconv.ParseUint_loop (strconv.format_loop fuel n "") 0 = (n, None).
Proof.
  revert n. induction fuel as [| f IH]; intros n Hn Hf.
  - simpl in *. f_equal. lia.
  - cbn [strconv.format_loop].
    pose proof (Z.div_mod n 10 ltac:(lia)) as Hdm.
    pose proof (Z.mod_pos_bound n 10 ltac:(lia)) as Hm.
    destruct (Z.eqb_spec (n / 10) 0) as [Hz | Hnz].
    + rewrite ParseUint_loop_digit by lia. f_equal. lia.
    + rewrite format_loop_acc, ParseUint_loop_app.
      rewrite IH.
      * rewrite ParseUint_loop_digit; [f_equal; lia | lia | | lia].
        apply Z.div_pos; lia.
      * split; [apply Z.div_pos; lia |].
        apply Z.div_lt_upper_bound; lia.
      * apply Z.div_lt_upper_bound; [lia |].
        rewrite Nat2Z.inj_succ, Z.pow_succ_r in Hf by lia. lia.
Qed.

(** [ParseInt] reads back what [FormatInt] printed, for every value the
    32-bit parse accepts without a sign. *)
Lemma ParseInt_FormatInt (n : Z) :
  int31 n -> strconv.ParseInt (strconv.FormatInt n) = (n, None).
Proof.
  unfold int31. intros Hn.
  destruct (FormatInt_shape n ltac:(lia)) as (c & r & E & Hc & Hr).
  assert (strconv.ParseUint_loop (strconv.FormatInt n) 0 = (n, None)) as Hp.
  { unfold strconv.FormatInt. destruct (Z.ltb_spec n 0); [lia |].
    apply ParseUint_loop_format; [lia |].
    change (10 ^ Z.of_nat 20) with 100000000000000000000. lia. }
  rewrite E in *. unfold strconv.ParseInt.
  assert (Ascii.eqb c "+" = false) as ->.
  { destruct (Ascii.eqb_spec c "+"%char) as [-> |]; [discriminate | reflexivity]. }
  assert (Ascii.eqb c "-" = false) as ->.
  { destruct (Ascii.eqb_spec c "-"%char) as [-> |]; [discriminate | reflexivity]. }
  cbn [orb negb andb]. unfold strconv.ParseUint. rewrite Hp.
  destruct (Z.leb_spec (2 ^ 31) n); [lia | reflexivity].
Qed.

(** ** The parser on the two grammars *)

(** A component printed by [%d] holds none of the separators. *)
Lemma FormatInt_no_sep (n : Z) (c : ascii) :
  0 <= n -> strconv.is_digit c = false -> has_byte c (strconv.FormatInt n) = false.
Proof. intros Hn Hc. apply all_digits_no_byte; [exact Hc | now apply FormatInt_digits]. Qed.

Lemma Sprintf_triple_no_hyphen (M m p : Z) :
  0 <= M -> 0 <= m -> 0 <= p -> has_byte "-" (Sprintf_triple M m p) = false.
Proof.
  intros HM Hm Hp. unfold Sprintf_triple.
  rewrite !has_byte_app. cbn [has_byte].
  rewrite !FormatInt_no_sep by (assumption || reflexivity). reflexivity.
Qed.

Lemma Sprintf_triple_Split (M m p : Z) :
  0 <= M -> 0 <= m -> 0 <= p ->
  strings.Split (Sprintf_triple M m p) "."
  = [strconv.FormatInt M; strconv.FormatInt m; strconv.FormatInt p].
Proof.
  intros HM Hm Hp. unfold Sprintf_triple. cbn [append].
  rewrite !Split_app_sep by (apply FormatInt_no_sep; (assumption || reflexivity)).
  rewrite Split_no_sep by (apply FormatInt_no_sep; (assumption || reflexivity)).
  reflexivity.
Qed.

(** The release form parses to its three numbers. *)
Lemma ParseVersion_release_form (M m p : Z) :
  int31 M -> int31 m -> int31 p ->
  ParseVersion (release_form M m p) = Ok (Parsed (mkVersion M m p false 0 "")).
Proof.
  unfold int31, release_form. intros HM Hm Hp.
  unfold ParseVersion. cbv zeta.
  rewrite (Split_no_sep (Sprintf_triple M m p) "-")
    by (apply Sprintf_triple_no_hyphen; lia).
  cbn [index lookup list_lookup bind].
  rewrite Sprintf_triple_Split by lia.
  cbn [length Nat.eqb negb index lookup list_lookup bind].
  rewrite !ParseInt_FormatInt by (unfold int31; lia).
  reflexivity.
Qed.

(** The dev form parses to its four numbers; the commit hash is read up to
    its first separator, if it has one. *)
Lemma ParseVersion_dev_form (M m p B : Z) (commit : string) :
  int31 M -> int31 m -> int31 p -> int31 B ->
  exists c', ParseVersion (dev_form M m p B commit)
             = Ok (Parsed (mkVersion M m p true B c'))
    /\ (has_byte "-" commit = false -> has_byte "." commit = false ->
        has_byte "+" commit = false -> c' = commit).
Proof.
  unfold int31, dev_form. intros HM Hm Hp HB.
  destruct (Split_nonempty commit "-") as (h1 & t1 & E1).
  destruct (Split_nonempty h1 ".") as (h2 & t2 & E2).
  destruct (Split_nonempty h2 "+") as (h3 & t3 & E3).
  exists h3. split.
  - unfold ParseVersion. cbv zeta. cbn [append].
    rewrite Split_app_sep by (apply Sprintf_triple_no_hyphen; lia).
    assert (strings.Split (String "d" (String "e" (String "v" (String "."
              (strconv.FormatInt B ++ String "+" commit))))) "-"
            = String "d" (String "e" (String "v" (String "."
                (strconv.FormatInt B ++ String "+" h1)))) :: t1) as ->.
    { rewrite <- (append_plus (strconv.FormatInt B) commit),
              <- (append_plus (strconv.FormatInt B) h1).
      apply (Split_app_hd ("dev." ++ (strconv.FormatInt B ++ "+")) commit h1 t1 "-");
        [| exact E1].
      rewrite !has_byte_app. cbn [has_byte append].
      rewrite FormatInt_no_sep by (lia || reflexivity). reflexivity. }
    cbn [index lookup list_lookup bind].
    rewrite Sprintf_triple_Split by lia.
    cbn [length Nat.eqb negb index lookup list_lookup bind].
    rewrite !ParseInt_FormatInt by (unfold int31; lia).
    cbn [Nat.ltb Nat.leb length].
    assert (strings.Split (String "d" (String "e" (String "v" (String "."
              (strconv.FormatInt B ++ String "+" h1))))) "."
            = "dev" :: (strconv.FormatInt B ++ String "+" h2) :: t2) as ->.
    { change (String "d" (String "e" (String "v" (String "." ?x))))
        with ("dev" ++ String "." x).
      rewrite Split_app_sep by reflexivity. f_equal.
      rewrite <- (append_plus (strconv.FormatInt B) h1),
              <- (append_plus (strconv.FormatInt B) h2).
      apply Split_app_hd; [| exact E2].
      rewrite has_byte_app. cbn [has_byte].
      rewrite FormatInt_no_sep by (lia || reflexivity). reflexivity. }
    cbn [index lookup list_lookup bind].
    rewrite Split_app_sep by (apply FormatInt_no_sep; (lia || reflexivity)).
    rewrite E3.
    cbn [index lookup list_lookup bind].
    rewrite ParseInt_FormatInt by (unfold int31; lia).
    reflexivity.
  - intros H1 H2 H3.
    rewrite (Split_no_sep commit "-" H1) in E1. injection E1 as <- _.
    rewrite (Split_no_sep commit "." H2) in E2. injection E2 as <- _.
    rewrite (Split_no_sep commit "+" H3) in E3. injection E3 as <- _.
    reflexivity.
Qed.

(** *** Numerals: the parser and the display on the text of a number *)

Lemma is_digit_value (c : ascii) :
  strconv.is_digit c = true -> 0 <= Z.of_N (N_of_ascii c) - 48 < 10.
Proof.
  unfold strconv.is_digit. intros [H1 H2]%andb_prop.
  apply Z.leb_le in H1, H2. lia.
Qed.

Lemma digit_char_of_digit (c : ascii) :
  strconv.is_digit c = true ->
  strconv.digit_char (Z.of_N (N_of_ascii c) - 48) = c.
Proof.
  intros H. pose proof (is_digit_value c H). unfold strconv.digit_char.
  replace (48 + (Z.of_N (N_of_ascii c) - 48)) with (Z.of_N (N_of_ascii c)) by lia.
  now rewrite N2Z.id, ascii_N_embedding.
Qed.

Lemma digits_value_app (a b : string) (n : Z) :
  digits_value (a ++ b) n = digits_value b (digits_value a n).
Proof. revert n. induction a as [| c r IH]; intros n; simpl; [reflexivity | apply IH]. Qed.

Lemma digits_value_ge (s : string) (n : Z) :
  all_digits s = true -> 0 <= n -> n <= digits_value s n.
Proof.
  revert n. induction s as [| c r IH]; intros n; simpl; [lia |].
  intros [Hc Hr]%andb_prop Hn. pose proof (is_digit_value c Hc).
  specialize (IH (n * 10 + (Z.of_N (N_of_ascii c) - 48)) Hr). lia.
Qed.

(** The loop of the parser reads the number that the digits write, as long
    as it fits 32 bits. *)
Lemma ParseUint_loop_digits (s : string) (n : Z) :
  all_digits s = true -> 0 <= n -> digits_value s n < 2 ^ 32 ->
  strconv.ParseUint_loop s n = (digits_value s n, None).
Proof.
  revert n. induction s as [| c r IH]; intros n; [reflexivity |].
  cbn [all_digits digits_value strconv.ParseUint_loop].
  intros [Hc Hr]%andb_prop Hn Hfit. rewrite Hc.
  pose proof (is_digit_value c Hc) as Hd.
  pose proof (digits_value_ge r (n * 10 + (Z.of_N (N_of_ascii c) - 48)) Hr ltac:(lia)) as Hge.
  unfold strconv.maxUint64.
  destruct (Z.leb_spec ((2 ^ 64 - 1) / 10 + 1) n) as [Hcut | _].
  { change ((2 ^ 64 - 1) / 10 + 1) with 1844674407370955162 in Hcut. lia. }
  rewrite (Z.mod_small (n * 10)) by lia.
  rewrite (Z.mod_small (n * 10 + _)) by lia.
  destruct (Z.ltb_spec (n * 10 + (Z.of_N (N_of_ascii c) - 48)) (n * 10)); [lia |].
  destruct (Z.ltb_spec (2 ^ 32 - 1) (n * 10 + (Z.of_N (N_of_ascii c) - 48))); [lia |].
  cbn [orb]. apply IH; auto; lia.
Qed.

Lemma canonical_digits (s : string) :
  canonical s = true -> exists c r, s = String c r /\ all_digits s = true.
Proof.
  destruct s as [| c r]; [discriminate |]. cbn [canonical].
  destruct (Ascii.eqb_spec c "0") as [-> | _].
  - destruct r; [| discriminate]. intros _. exists "0"%char, "". split; reflexivity.
  - intros H. exists c, r. split; [reflexivity | exact H].
Qed.

(** [ParseInt] on a numeral gives its number. *)
Lemma ParseInt_numeral (s : string) :
  numeral s -> strconv.ParseInt s = (digits_value s 0, None).
Proof.
  intros [Hc Hv]. destruct (canonical_digits s Hc) as (c & r & -> & Hd).
  pose proof (digits_value_ge _ 0 Hd ltac:(lia)) as Hge.
  assert (strconv.ParseUint_loop (String c r) 0 = (digits_value (String c r) 0, None)) as Hp
    by (apply ParseUint_loop_digits; auto; lia).
  pose proof Hd as Hd'. cbn [all_digits] in Hd'. apply andb_prop in Hd' as [Hc' _].
  unfold strconv.ParseInt.
  assert (Ascii.eqb c "+" = false) as ->.
  { destruct (Ascii.eqb_spec c "+"%char) as [-> |]; [discriminate | reflexivity]. }
  assert (Ascii.eqb c "-" = false) as ->.
  { destruct (Ascii.eqb_spec c "-"%char) as [-> |]; [discriminate | reflexivity]. }
  cbn [orb negb andb]. unfold strconv.ParseUint. rewrite Hp.
  destruct (Z.leb_spec (2 ^ 31) (digits_value (String c r) 0)); [lia | reflexivity].
Qed.

(** A string with a first byte ends in a last byte. *)
Lemma string_snoc (r : string) (c : ascii) :
  exists s' c', String c r = s' ++ String c' ""
                /\ String.length s' = String.length r
                /\ (s' = "" \/ exists t, s' = String c t).
Proof.
  revert c. induction r as [| x r IH]; intros c.
  - exists "", c. splits; auto.
  - destruct (IH x) as (s0 & c' & E & Hl & _).
    exists (String c s0), c'. rewrite E.
    splits; [reflexivity | simpl; now rewrite <- E, Hl | right; eauto].
Qed.

(** The digit loop of the display writes a numeral that does not start
    with [0] as it is. *)
Lemma format_loop_numeral (len : nat) :
  forall (c : ascii) (r : string) (fuel : nat) (acc : string),
    String.length r = len ->
    all_digits (String c r) = true -> Ascii.eqb c "0" = false ->
    digits_value (String c r) 0 < 10 ^ Z.of_nat fuel ->
    strconv.format_loop fuel (digits_value (String c r) 0) acc = String c r ++ acc.
Proof.
  induction len as [len IH] using lt_wf_ind.
  intros c r fuel acc Hlen Hd Hc Hfit.
  assert (1 <= digits_value (String c r) 0) as Hpos.
  { cbn [all_digits] in Hd. apply andb_prop in Hd as [Hdc Hdr].
    pose proof (is_digit_value c Hdc).
    assert (Z.of_N (N_of_ascii c) - 48 <> 0) as Hnz.
    { intros Hz. rewrite <- (digit_char_of_digit c Hdc), Hz in Hc. discriminate. }
    cbn [digits_value].
    pose proof (digits_value_ge r (0 * 10 + (Z.of_N (N_of_ascii c) - 48)) Hdr ltac:(lia)).
    lia. }
  destruct (string_snoc r c) as (s' & c' & E & Hl & Hs').
  rewrite E in *. rewrite all_digits_app in Hd. apply andb_prop in Hd as [Hds Hdc'].
  cbn [all_digits] in Hdc'. rewrite andb_true_r in Hdc'.
  pose proof (is_digit_value c' Hdc') as Hd'.
  rewrite digits_value_app in *. cbn [digits_value] in *.
  pose proof (digits_value_ge s' 0 Hds ltac:(lia)) as Hge.
  set (n := digits_value s' 0) in *. set (d := Z.of_N (N_of_ascii c') - 48) in *.
  destruct fuel as [| f]; [simpl in Hfit; lia |].
  cbn [strconv.format_loop].
  replace ((n * 10 + d) mod 10) with d
    by (rewrite Z.add_comm, Z.mod_add by lia; symmetry; apply Z.mod_small; lia).
  replace ((n * 10 + d) / 10) with n
    by (rewrite Z.add_comm, Z.div_add by lia; rewrite (Z.div_small d 10) by lia; lia).
  subst d. rewrite (digit_char_of_digit c' Hdc').
  destruct Hs' as [-> | (t & ->)].
  - subst n. reflexivity.
  - assert (1 <= n) as Hn1.
    { subst n. cbn [all_digits] in Hds. apply andb_prop in Hds as [Hdc Hdt].
      pose proof (is_digit_value c Hdc).
      assert (Z.of_N (N_of_ascii c) - 48 <> 0) as Hnz.
      { intros Hz. rewrite <- (digit_char_of_digit c Hdc), Hz in Hc. discriminate. }
      cbn [digits_value].
      pose proof (digits_value_ge t (0 * 10 + (Z.of_N (N_of_ascii c) - 48)) Hdt ltac:(lia)).
      lia. }
    destruct (Z.eqb_spec n 0); [lia |].
    subst n. cbn [digits_value] in *. rewrite (IH (String.length t)); auto.
    + now rewrite append_assoc.
    + simpl in Hl. lia.
    + rewrite Nat2Z.inj_succ, Z.pow_succ_r in Hfit by lia. lia.
Qed.

(** [FormatInt] writes the number of a numeral as the numeral itself. *)
Lemma FormatInt_numeral (s : string) :
  numeral s -> strconv.FormatInt (digits_value s 0) = s.
Proof.
  intros [Hc Hv]. destruct (canonical_digits s Hc) as (c & r & -> & Hd).
  pose proof (digits_value_ge _ 0 Hd ltac:(lia)) as Hge.
  unfold strconv.FormatInt.
  destruct (Z.ltb_spec (digits_value (String c r) 0) 0); [lia |].
  cbn [canonical] in Hc.
  destruct (Ascii.eqb_spec c "0") as [-> | Hne].
  - destruct r; [reflexivity | discriminate].
  - rewrite (format_loop_numeral (String.length r) c r 20 ""); auto.
    + apply append_nil_r.
    + now apply Ascii.eqb_neq.
    + change (10 ^ Z.of_nat 20) with 100000000000000000000. lia.
Qed.

Lemma numeral_no_sep (s : string) (c : ascii) :
  numeral s -> strconv.is_digit c = false -> has_byte c s = false.
Proof.
  intros [Hc _] Hsep. destruct (canonical_digits s Hc) as (x & r & -> & Hd).
  now apply all_digits_no_byte.
Qed.

(** The release text of three numerals parses to their numbers. *)
Lemma ParseVersion_release_text (A B C : string) :
  numeral A -> numeral B -> numeral C ->
  ParseVersion (release_text A B C)
  = Ok (Parsed (mkVersion (digits_value A 0) (digits_value B 0) (digits_value C 0)
                          false 0 "")).
Proof.
  intros HA HB HC. unfold ParseVersion, release_text. cbv zeta. cbn [append].
  rewrite (Split_no_sep (A ++ String "." (B ++ String "." C)) "-").
  2:{ repeat (rewrite has_byte_app; cbn [has_byte]).
      rewrite !numeral_no_sep by (assumption || reflexivity). reflexivity. }
  cbn [index lookup list_lookup bind].
  rewrite !Split_app_sep by (apply numeral_no_sep; (assumption || reflexivity)).
  rewrite Split_no_sep by (apply numeral_no_sep; (assumption || reflexivity)).
  cbn [length Nat.eqb negb index lookup list_lookup bind].
  rewrite !ParseInt_numeral by assumption.
  reflexivity.
Qed.

(** The dev text of four numerals and a commit parses to their numbers. *)
Lemma ParseVersion_dev_text (A B C Bs commit : string) :
  numeral A -> numeral B -> numeral C -> numeral Bs ->
  exists c',
    ParseVersion (dev_text A B C Bs commit)
    = Ok (Parsed (mkVersion (digits_value A 0) (digits_value B 0) (digits_value C 0)
                            true (digits_value Bs 0) c')).
Proof.
  intros HA HB HC HBs.
  destruct (Split_nonempty commit "-") as (h1 & t1 & E1).
  destruct (Split_nonempty h1 ".") as (h2 & t2 & E2).
  destruct (Split_nonempty h2 "+") as (h3 & t3 & E3).
  exists h3. unfold ParseVersion, dev_text. cbv zeta.
  assert (A ++ "." ++ B ++ "." ++ C ++ "-dev." ++ Bs ++ "+" ++ commit
          = release_text A B C ++ String "-" ("dev." ++ (Bs ++ "+") ++ commit)) as ->.
  { unfold release_text. cbn [append].
    repeat (rewrite append_assoc; cbn [append]). reflexivity. }
  assert (has_byte "-" (release_text A B C) = false) as Hrel.
  { unfold release_text. cbn [append]. repeat (rewrite has_byte_app; cbn [has_byte]).
    rewrite !numeral_no_sep by (assumption || reflexivity). reflexivity. }
  rewrite (Split_app_sep _ _ "-" Hrel).
  rewrite <- append_assoc.
  rewrite (Split_app_hd ("dev." ++ (Bs ++ "+")) commit h1 t1 "-"); [| | exact E1].
  2:{ rewrite !has_byte_app. cbn [has_byte append].
      rewrite numeral_no_sep by (assumption || reflexivity). reflexivity. }
  cbn [index lookup list_lookup bind].
  assert (strings.Split (release_text A B C) "." = [A; B; C]) as ->.
  { unfold release_text. cbn [append].
    rewrite !Split_app_sep by (apply numeral_no_sep; (assumption || reflexivity)).
    rewrite Split_no_sep by (apply numeral_no_sep; (assumption || reflexivity)).
    reflexivity. }
  cbn [length Nat.eqb negb index lookup list_lookup bind].
  rewrite !ParseInt_numeral by assumption.
  cbn [Nat.ltb Nat.leb length].
  change (("dev." ++ Bs ++ "+") ++ h1) with ("dev" ++ String "." ((Bs ++ "+") ++ h1)).
  rewrite Split_app_sep by reflexivity.
  rewrite (Split_app_hd (Bs ++ "+") h1 h2 t2 "."); [| | exact E2].
  2:{ rewrite has_byte_app. cbn [has_byte].
      rewrite numeral_no_sep by (assumption || reflexivity). reflexivity. }
  cbn [index lookup list_lookup bind].
  rewrite append_plus.
  rewrite Split_app_sep by (apply numeral_no_sep; (assumption || reflexivity)).
  rewrite E3. cbn [index lookup list_lookup bind].
  rewrite ParseInt_numeral by assumption.
  reflexivity.
Qed.

(** C9, as the code has it.  Parse, then display, on numerals (no sign, no
    leading zero, up to 2^31-1): a release-form string comes back as it is,
    with no dev suffix; a dev-form string comes back as
    MAJOR.MINOR.PATCH-dev-BUILD, without its commit hash. *)
Theorem parse_display_roundtrip (major minor patch : string) :
  numeral major -> numeral minor -> numeral patch ->
  (exists v, ParseVersion (release_text major minor patch) = Ok (Parsed v)
             /\ Version_String v = release_text major minor patch)
  /\ (forall (build commit : string), numeral build ->
      exists v, ParseVersion (dev_text major minor patch build commit) = Ok (Parsed v)
                /\ Version_String v
                   = release_text major minor patch ++ "-dev-" ++ build).
Proof.
  intros HM Hm Hp. split.
  - eexists. split; [now apply ParseVersion_release_text |].
    unfold Version_String, Sprintf_triple, release_text.
    cbn [Dev Major Minor Patch]. now rewrite !FormatInt_numeral.
  - intros build commit HB.
    destruct (ParseVersion_dev_text major minor patch build commit HM Hm Hp HB) as (c' & E).
    eexists. split; [exact E |].
    unfold Version_String, Sprintf_triple, release_text.
    cbn [Dev Major Minor Patch Build]. now rewrite !FormatInt_numeral.
Qed.

Lemma parse_display_roundtrip_witness :
  (exists v, ParseVersion "0.10.1" = Ok (Parsed v) /\ Version_String v = "0.10.1")
  /\ (forall (build commit : string), numeral build ->
      exists v, ParseVersion (dev_text "0" "10" "1" build commit) = Ok (Parsed v)
                /\ Version_String v = "0.10.1" ++ "-dev-" ++ build).
Proof.
  apply (parse_display_roundtrip "0" "10" "1"); split; (reflexivity || (simpl; lia)).
Defined.

(** C9 as stated fails: a release-form string with a leading zero comes
    back without it, and a major number beyond 32 bits comes back as
    2147483647. *)
Lemma leading_zero_not_roundtrip :
  ParseVersion "01.2.3" = Ok (Parsed (mkVersion 1 2 3 false 0 ""))
  /\ Version_String (mkVersion 1 2 3 false 0 "") = "1.2.3"
  /\ Version_String (mkVersion 1 2 3 false 0 "") <> "01.2.3"
  /\ ParseVersion "2147483648.0.0" = Ok (Parsed (mkVersion 2147483647 0 0 false 0 ""))
  /\ Version_String (mkVersion 2147483647 0 0 false 0 "") <> "2147483648.0.0".
Proof. splits; (reflexivity || discriminate). Qed.

(** C10, as the code has it: when the part before the first hyphen has
    three dot-separated segments of which the last parses, and the segment
    after that hyphen holds no dot, the parser panics on index 1 of a
    one-element slice; the display form of a dev version is such an input. *)
Theorem ParseVersion_no_dot_tail_panics :
  (forall (v sp0 sp1 s0 s1 s2 : string) (rest : list string) (patch : Z),
      strings.Split v "-" = sp0 :: sp1 :: rest ->
      strings.Split sp0 "." = [s0; s1; s2] ->
      strconv.ParseInt s2 = (patch, None) ->
      has_byte "." sp1 = false ->
      ParseVersion v = Panic (IndexOutOfRange 1 1))
  /\ (forall (M m p B : Z) (commit : string),
      int31 M -> int31 m -> int31 p ->
      ParseVersion (Version_String (mkVersion M m p true B commit))
      = Panic (IndexOutOfRange 1 1)).
Proof.
  assert (forall (v sp0 sp1 s0 s1 s2 : string) (rest : list string) (patch : Z),
      strings.Split v "-" = sp0 :: sp1 :: rest ->
      strings.Split sp0 "." = [s0; s1; s2] ->
      strconv.ParseInt s2 = (patch, None) ->
      has_byte "." sp1 = false ->
      ParseVersion v = Panic (IndexOutOfRange 1 1)) as Hgen.
  { intros v sp0 sp1 s0 s1 s2 rest patch Hsp Hsp0 Hpatch Hdot.
    unfold ParseVersion. cbv zeta. rewrite Hsp.
    cbn [index lookup list_lookup bind]. rewrite Hsp0.
    cbn [length Nat.eqb negb index lookup list_lookup bind].
    rewrite Hpatch.
    destruct (strconv.ParseInt s0) as [major e0], (strconv.ParseInt s1) as [minor e1].
    cbn [Nat.ltb Nat.leb length].
    rewrite (Split_no_sep sp1 "." Hdot). reflexivity. }
  split; [exact Hgen |].
  unfold int31. intros M m p B commit HM Hm Hp.
  destruct (Split_nonempty (strconv.FormatInt B) "-") as (h & t & E).
  apply (Hgen _ (Sprintf_triple M m p) "dev"
           (strconv.FormatInt M) (strconv.FormatInt m) (strconv.FormatInt p)
           (h :: t) p).
  - unfold Version_String. cbn [Dev Major Minor Patch Build append].
    rewrite Split_app_sep by (apply Sprintf_triple_no_hyphen; lia).
    f_equal.
    change (String "d" (String "e" (String "v" (String "-" ?x))))
      with ("dev" ++ String "-" x).
    rewrite Split_app_sep by reflexivity. now rewrite E.
  - apply Sprintf_triple_Split; lia.
  - apply ParseInt_FormatInt. unfold int31; lia.
  - reflexivity.
Qed.

Lemma ParseVersion_no_dot_tail_panics_witness :
  ParseVersion "0.11.0-dev-1234" = Panic (IndexOutOfRange 1 1).
Proof.
  apply (proj1 ParseVersion_no_dot_tail_panics
           "0.11.0-dev-1234" "0.11.0" "dev" "0" "11" "0" ["1234"] 0);
    reflexivity.
Defined.

(** ** The remote index fold *)

Section RemoteFold.

Variable GOOS GOARCH home : string.
Variable path_Join : list string -> string.

(** The local path of a URL is always there: a split has a last field. *)
Lemma localTarballPathFromUrl_ok (url : string) :
  exists filename,
    localTarballPathFromUrl home path_Join url
    = Ok (localDirPath home path_Join ["tarballs"; filename]).
Proof.
  unfold localTarballPathFromUrl, index. cbv zeta.
  destruct (Split_nonempty url "/") as (h & t & ->).
  destruct (lookup_lt_is_Some_2 (h :: t) (length (h :: t) - 1)) as [f Hf];
    [simpl; lia |].
  rewrite Hf. exists f. reflexivity.
Qed.

(** What one round of the loop appends for a record with a descriptor. *)
Lemma remote_step_descr (items : AppState) (k : string) (e : ZigIndexEntry)
      (fe : ZigIndexFileEntry) (v : Version) :
  GetFileEntryForHost GOOS GOARCH e = Ok (Some fe) ->
  ParseVersion (versionString k e) = Ok (Parsed v) ->
  exists lp,
    remote_step GOOS GOARCH home path_Join items k e
    = Ok (items ++ [mkItem v false false true
                      (negb (String.eqb (EntryVersion e) "")) lp (Tarball fe)])%list.
Proof.
  intros Hfe Hv. unfold remote_step, ParseVersion_or_panic.
  rewrite Hfe. cbn [bind]. rewrite Hv. cbn [bind RemoteUrl set_RemoteUrl].
  destruct (localTarballPathFromUrl_ok (Tarball fe)) as (f & ->).
  cbn [bind]. eexists.
  destruct (String.eqb (EntryVersion e) ""); reflexivity.
Qed.

(** C1, as the code has it: for a record with a descriptor for the host,
    an empty version string makes the catalog key the version string and
    leaves [Master] false; a non-empty one is the version string itself
    and sets [Master]. *)
Theorem remote_step_master (items : AppState) (k : string) (e : ZigIndexEntry)
        (fe : ZigIndexFileEntry) (v : Version) :
  GetFileEntryForHost GOOS GOARCH e = Ok (Some fe) ->
  ParseVersion (versionString k e) = Ok (Parsed v) ->
  exists it,
    remote_step GOOS GOARCH home path_Join items k e = Ok (items ++ [it])%list
    /\ ItemVersion it = v /\ Indexed it = true /\ RemoteUrl it = Tarball fe
    /\ (EntryVersion e = "" -> versionString k e = k /\ Master it = false)
    /\ (EntryVersion e <> "" -> versionString k e = EntryVersion e /\ Master it = true).
Proof.
  intros Hfe Hv.
  destruct (remote_step_descr items k e fe v Hfe Hv) as (lp & ->).
  eexists. split; [reflexivity |]. cbn [ItemVersion Indexed RemoteUrl Master].
  unfold versionString.
  repeat split; try (intros ->; reflexivity);
    destruct (String.eqb_spec (EntryVersion e) ""); congruence || reflexivity.
Qed.

End RemoteFold.

Lemma remote_step_master_witness :
  exists it,
    remote_step "linux" "amd64" "/home/u" join_slash [] "0.10.1"
                (linux_entry "" url_0_10_1) = Ok ([] ++ [it])%list
    /\ ItemVersion it = mkVersion 0 10 1 false 0 ""
    /\ Indexed it = true
    /\ RemoteUrl it = Tarball (mkFileEntry url_0_10_1 "" "")
    /\ (EntryVersion (linux_entry "" url_0_10_1) = ""
        -> versionString "0.10.1" (linux_entry "" url_0_10_1) = "0.10.1"
           /\ Master it = false)
    /\ (EntryVersion (linux_entry "" url_0_10_1) <> ""
        -> versionString "0.10.1" (linux_entry "" url_0_10_1)
           = EntryVersion (linux_entry "" url_0_10_1)
           /\ Master it = true).
Proof.
  apply (remote_step_master "linux" "amd64" "/home/u" join_slash []
           "0.10.1" (linux_entry "" url_0_10_1) (mkFileEntry url_0_10_1 "" "")
           (mkVersion 0 10 1 false 0 "")); reflexivity.
Defined.

(** C1 as stated fails: the record under the key 0.10.1 has an empty version
    string and its item has [Master] false, not true; the record under the
    key master has a version string and its item has [Master] true, not
    false. *)
Lemma remote_master_flag_values :
  exists it it',
    (remote_step "linux" "amd64" "/home/u" join_slash [] "0.10.1"
                 (linux_entry "" url_0_10_1) = Ok [it]
     /\ EntryVersion (linux_entry "" url_0_10_1) = ""
     /\ ItemVersion it = mkVersion 0 10 1 false 0 ""
     /\ Master it <> true)
    /\ (remote_step "linux" "amd64" "/home/u" join_slash [] "master"
                    (linux_entry "0.12.0-dev.100+abcdef12" url_master) = Ok [it']
        /\ EntryVersion (linux_entry "0.12.0-dev.100+abcdef12" url_master) <> ""
        /\ ItemVersion it' = mkVersion 0 12 0 true 100 "abcdef12"
        /\ Master it' <> false).
Proof.
  do 2 eexists. split; (split; [reflexivity |]); repeat split; discriminate.
Qed.

(** ** The current-install fold *)

(** C2 at its failing input: the index lists 0.10.1, the tarball directory
    is empty and the current-install directory holds the extracted 0.10.1.
    The item of 0.10.1 ends with [Current] true and [Downloaded] false. *)
Theorem current_without_tarball :
  reconcile "linux" "amd64" "/home/u" join_slash
            (Got [("0.10.1", linux_entry "" url_0_10_1)])
            (Got [])
            (Got [mkDirEntry "zig-linux-x86_64-0.10.1" true])
  = Ok [mkItem (mkVersion 0 10 1 false 0 "") false true true false
          "/home/u/.zig-toolchain/tarballs/zig-linux-x86_64-0.10.1.tar.xz" url_0_10_1].
Proof. reflexivity. Qed.

(** ** Lookup by version *)

Lemma GetItemByVersion_Some (items : AppState) (v : Version) (i : nat) :
  GetItemByVersion items v = Some i ->
  exists it, items !! i = Some it /\ equal (ItemVersion it) v = true.
Proof.
  revert i. induction items as [| x items IH]; intros i; simpl; [discriminate |].
  destruct (equal (ItemVersion x) v) eqn:E.
  - intros [= <-]. eauto.
  - destruct (GetItemByVersion items v) as [j |]; [| discriminate].
    intros [= <-]. apply (IH j eq_refl).
Qed.

Lemma GetItemByVersion_app (items more : AppState) (v : Version) (i : nat) :
  GetItemByVersion items v = Some i ->
  GetItemByVersion (items ++ more)%list v = Some i.
Proof.
  revert i. induction items as [| x items IH]; intros i; simpl; [discriminate |].
  destruct (equal (ItemVersion x) v); [trivial |].
  destruct (GetItemByVersion items v) as [j |]; [| discriminate].
  intros [= <-]. now rewrite (IH j eq_refl).
Qed.

(** The lookup reads the versions only, and only up to [equal]. *)
Lemma GetItemByVersion_equal (items : AppState) (v v' : Version) :
  equal v v' = true -> GetItemByVersion items v = GetItemByVersion items v'.
Proof.
  intros E. induction items as [| x items IH]; simpl; [reflexivity |].
  now rewrite (equal_congr v v' (ItemVersion x) E), IH.
Qed.

Lemma GetItemByVersion_alter (f : Item -> Item) (items : AppState) (j : nat) (v : Version) :
  (forall it, ItemVersion (f it) = ItemVersion it) ->
  GetItemByVersion (alter f j items) v = GetItemByVersion items v.
Proof.
  intros Hf. revert j. unfold alter.
  induction items as [| x items IH]; intros j; [reflexivity |].
  destruct j as [| j]; simpl.
  - now rewrite Hf.
  - now rewrite IH.
Qed.

Lemma GetItemByVersion_In (items : AppState) (it : Item) (v : Version) :
  In it items -> equal (ItemVersion it) v = true ->
  exists i, GetItemByVersion items v = Some i.
Proof.
  intros Hin E. induction items as [| x items IH]; simpl in *; [contradiction |].
  destruct (equal (ItemVersion x) v) eqn:Ex; [eauto |].
  destruct Hin as [-> | Hin]; [congruence |].
  destruct (IH Hin) as [i ->]. simpl. eauto.
Qed.

(** ** The three folds, one item at a time *)

Section Folds.

Variable GOOS GOARCH home : string.
Variable path_Join : list string -> string.

(** A round of the remote loop leaves the state or appends an indexed item. *)
Lemma remote_step_inv (items items' : AppState) (k : string) (e : ZigIndexEntry) :
  remote_step GOOS GOARCH home path_Join items k e = Ok items' ->
  items' = items \/ exists it, items' = (items ++ [it])%list /\ Indexed it = true.
Proof.
  unfold remote_step.
  destruct (GetFileEntryForHost GOOS GOARCH e) as [[fe |] | |]; cbn [bind];
    try discriminate; [| intros [= <-]; now left].
  destruct (ParseVersion_or_panic (versionString k e)) as [v | |]; cbn [bind];
    try discriminate.
  destruct (localTarballPathFromUrl _ _ _) as [lp | |]; cbn [bind]; try discriminate.
  intros [= <-]. right. eexists. split; reflexivity.
Qed.

Lemma loadRemote_inv (entries : list (string * ZigIndexEntry)) (items items' : AppState) :
  loadRemote GOOS GOARCH home path_Join entries items = Ok items' ->
  exists more, items' = (items ++ more)%list
               /\ Forall (fun it => Indexed it = true) more.
Proof.
  revert items. induction entries as [| [k e] rest IH]; intros items; simpl.
  - intros [= <-]. exists []. split; [now rewrite app_nil_r | constructor].
  - destruct (remote_step _ _ _ _ items k e) as [items1 | |] eqn:E1; cbn [bind];
      try discriminate.
    intros H. destruct (IH _ H) as (more & -> & Hmore).
    destruct (remote_step_inv _ _ _ _ E1) as [-> | (it & -> & Hit)]; [eauto |].
    exists (it :: more). split; [now rewrite <- app_assoc | now constructor].
Qed.

(** A record with a descriptor for the host has its item in the state. *)
Lemma loadRemote_In (entries : list (string * ZigIndexEntry)) (items items' : AppState)
      (k : string) (e : ZigIndexEntry) (fe : ZigIndexFileEntry) (v : Version) :
  loadRemote GOOS GOARCH home path_Join entries items = Ok items' ->
  In (k, e) entries ->
  GetFileEntryForHost GOOS GOARCH e = Ok (Some fe) ->
  ParseVersion (versionString k e) = Ok (Parsed v) ->
  exists it, In it items' /\ ItemVersion it = v.
Proof.
  intros Hload Hin Hfe Hv. revert items Hload.
  induction entries as [| [k0 e0] rest IH]; intros items; simpl in *; [contradiction |].
  destruct (remote_step _ _ _ _ items k0 e0) as [items1 | |] eqn:E1; cbn [bind];
    try discriminate.
  intros Hload. destruct Hin as [[= -> ->] | Hin]; [| now apply (IH Hin items1)].
  destruct (remote_step_descr GOOS GOARCH home path_Join items k e fe v Hfe Hv)
    as (lp & E). rewrite E in E1. injection E1 as <-.
  destruct (loadRemote_inv _ _ _ Hload) as (more & -> & _).
  exists (mkItem v false false true (negb (String.eqb (EntryVersion e) "")) lp (Tarball fe)).
  split; [| reflexivity].
  apply in_or_app. left. apply in_or_app. right. now left.
Qed.

(** One tarball, seen from the item the lookup of [v] gives. *)
Lemma tarball_step_at (items items' : AppState) (d : DirEntry) (v : Version)
      (i : nat) (it : Item) :
  tarball_step home path_Join items d = Ok items' ->
  GetItemByVersion items v = Some i ->
  items !! i = Some it ->
  exists it',
    items' !! i = Some it'
    /\ GetItemByVersion items' v = Some i
    /\ Indexed it' = Indexed it
    /\ (it' = it
        \/ (names_version v d /\ Downloaded it' = true
            /\ LocalPath it' = localDirPath home path_Join ["tarballs"; Name d]))
    /\ (names_version v d ->
        Downloaded it' = true
        /\ LocalPath it' = localDirPath home path_Join ["tarballs"; Name d]).
Proof.
  intros Hstep Hget Hit. unfold tarball_step in Hstep. cbv zeta in Hstep.
  destruct (String.eqb_spec (path.Ext (Name d)) ".xz") as [Hext | Hext].
  2:{ injection Hstep as <-. exists it. splits; auto.
      intros [Hx _]. contradiction. }
  destruct (tarballVersionTag (Name d)) as [tag | |] eqn:Etag; cbn [bind] in Hstep;
    try discriminate.
  unfold ParseVersion_or_panic in Hstep.
  destruct (ParseVersion tag) as [[w | err] | |] eqn:Ew; cbn [bind] in Hstep;
    try discriminate.
  (* the tarball names the version [w] *)
  assert (names_version v d -> GetItemByVersion items w = Some i) as Hsame.
  { intros (_ & tag' & v' & Htag' & Hv' & Heq).
    assert (tag' = tag) as -> by congruence.
    assert (v' = w) as -> by congruence.
    now rewrite <- (GetItemByVersion_equal items v w Heq). }
  destruct (GetItemByVersion items w) as [j |] eqn:Ej.
  - injection Hstep as <-.
    destruct (decide (j = i)) as [-> | Hne].
    + exists (set_LocalPath (localDirPath home path_Join ["tarballs"; Name d])
                (set_Downloaded true it)).
      rewrite list_lookup_alter_eq, Hit.
      rewrite GetItemByVersion_alter by reflexivity.
      assert (names_version v d) as Hnames.
      { split; [exact Hext |]. exists tag, w. splits; auto.
        destruct (GetItemByVersion_Some _ _ _ Hget) as (x & Hx & Ex).
        destruct (GetItemByVersion_Some _ _ _ Ej) as (y & Hy & Ey).
        assert (y = x) as -> by congruence.
        apply (equal_trans v (ItemVersion x) w); [| exact Ey].
        now rewrite equal_sym. }
      splits; auto.
    + exists it. rewrite list_lookup_alter_ne by exact Hne.
      rewrite GetItemByVersion_alter by reflexivity.
      splits; auto.
      all: intros Hn; specialize (Hsame Hn); congruence.
  - injection Hstep as <-. exists it.
    rewrite (lookup_app_l_Some _ _ _ _ Hit), (GetItemByVersion_app _ _ _ _ Hget).
    splits; auto.
    all: intros Hn; specialize (Hsame Hn); congruence.
Qed.

(** The whole tarball loop, seen from that item: once a tarball of [v]
    has been met, the item stays downloaded, with the path of a tarball
    of [v]. *)
Lemma scanTarballs_at (all dir : list DirEntry) (items items' : AppState)
      (v : Version) (i : nat) (it : Item) :
  (forall d, In d dir -> In d all) ->
  scanTarballs home path_Join dir items = Ok items' ->
  GetItemByVersion items v = Some i ->
  items !! i = Some it ->
  exists it',
    items' !! i = Some it'
    /\ GetItemByVersion items' v = Some i
    /\ Indexed it' = Indexed it
    /\ (archived home path_Join all v it -> archived home path_Join all v it')
    /\ ((exists d, In d dir /\ names_version v d) -> archived home path_Join all v it').
Proof.
  revert items it. induction dir as [| d rest IH]; intros items it Hall; simpl.
  - intros [= <-] Hget Hit. exists it. splits; auto.
    intros (d & [] & _).
  - destruct (tarball_step home path_Join items d) as [items1 | |] eqn:E1; cbn [bind];
      try discriminate.
    intros Hscan Hget Hit.
    destruct (tarball_step_at _ _ _ _ _ _ E1 Hget Hit)
      as (it1 & Hit1 & Hget1 & Hidx1 & Hcase & Hnames).
    destruct (IH items1 it1 (fun x Hx => Hall x (or_intror Hx)) Hscan Hget1 Hit1)
      as (it' & Hit' & Hget' & Hidx' & Hkeep & Hfound).
    assert (names_version v d -> archived home path_Join all v it1) as Hnow.
    { intros Hn. destruct (Hnames Hn) as [Hd Hp].
      split; [exact Hd |]. exists d. splits; auto. apply Hall. now left. }
    exists it'. splits; auto; try congruence.
    + intros Harch. apply Hkeep.
      destruct Hcase as [-> | (Hn & _)]; [exact Harch | now apply Hnow].
    + intros (d0 & [<- | Hin] & Hn); [apply Hkeep; now apply Hnow |].
      apply Hfound. eauto.
Qed.

(** The current-install loop writes [Current] and nothing else. *)
Lemma lookForCurrent_at (dir : list DirEntry) (items items' : AppState)
      (v : Version) (i : nat) (it : Item) :
  lookForCurrent dir items = Ok items' ->
  items !! i = Some it ->
  GetItemByVersion items' v = GetItemByVersion items v
  /\ exists it', items' !! i = Some it'
                 /\ ItemVersion it' = ItemVersion it
                 /\ Indexed it' = Indexed it
                 /\ Downloaded it' = Downloaded it
                 /\ LocalPath it' = LocalPath it.
Proof.
  intros Hrun Hit. induction dir as [| e rest IH]; simpl in Hrun.
  - injection Hrun as <-. split; [reflexivity |]. exists it. auto.
  - destruct (strings.HasPrefix (Name e) "zig" && IsDir e); [| now apply IH].
    destruct (currentVersionTag (Name e)) as [tag | |]; cbn [bind] in Hrun;
      try discriminate.
    destruct (ParseVersion_or_panic tag) as [w | |]; cbn [bind] in Hrun;
      try discriminate.
    destruct (GetItemByVersion items w) as [j |]; [| discriminate].
    injection Hrun as <-.
    split; [now apply GetItemByVersion_alter |].
    destruct (decide (j = i)) as [-> | Hne].
    + exists (set_Current true it). rewrite list_lookup_alter_eq, Hit. auto.
    + exists it. rewrite list_lookup_alter_ne by exact Hne. auto.
Qed.

End Folds.

(** ** Fold field precedence *)

Section Precedence.

Variable GOOS GOARCH home : string.
Variable path_Join : list string -> string.

(** Before the sort: the item the lookup of [v] gives is indexed and
    downloaded, and its local path is that of a tarball of [v] found in
    the tarball directory. *)
Lemma reconcile_precedence (entries : list (string * ZigIndexEntry))
      (tarballs current : list DirEntry) (items : AppState)
      (k : string) (e : ZigIndexEntry) (fe : ZigIndexFileEntry) (v : Version)
      (d : DirEntry) :
  reconcile GOOS GOARCH home path_Join (Got entries) (Got tarballs) (Got current)
  = Ok items ->
  In (k, e) entries ->
  GetFileEntryForHost GOOS GOARCH e = Ok (Some fe) ->
  ParseVersion (versionString k e) = Ok (Parsed v) ->
  In d tarballs ->
  names_version v d ->
  exists i it,
    GetItemByVersion items v = Some i
    /\ items !! i = Some it
    /\ equal (ItemVersion it) v = true
    /\ Indexed it = true
    /\ archived home path_Join tarballs v it.
Proof.
  intros Hrun Hin Hfe Hv Hd Hnames. unfold reconcile in Hrun. cbn [or_panic bind] in Hrun.
  destruct (loadRemote _ _ _ _ entries []) as [items1 | |] eqn:E1; cbn [bind] in Hrun;
    try discriminate.
  destruct (scanTarballs _ _ tarballs items1) as [items2 | |] eqn:E2; cbn [bind] in Hrun;
    try discriminate.
  (* fold 1 *)
  destruct (loadRemote_In _ _ _ _ _ _ _ _ _ _ _ E1 Hin Hfe Hv) as (it1 & Hin1 & Hv1).
  destruct (loadRemote_inv _ _ _ _ _ _ _ E1) as (more & Hmore & Hindexed).
  cbn [app] in Hmore. subst items1.
  destruct (GetItemByVersion_In more it1 v Hin1) as [i Hget1];
    [rewrite Hv1; apply equal_refl |].
  destruct (GetItemByVersion_Some _ _ _ Hget1) as (x1 & Hx1 & Ex1).
  assert (Indexed x1 = true) as Hidx1.
  { rewrite Forall_forall in Hindexed. apply Hindexed.
    now apply (list_elem_of_lookup_2 more i). }
  (* fold 2 *)
  destruct (scanTarballs_at home path_Join tarballs tarballs more items2 v i x1
              (fun _ H => H) E2 Hget1 Hx1)
    as (x2 & Hx2 & Hget2 & Hidx2 & _ & Hfound).
  (* fold 3 *)
  destruct (lookForCurrent_at current items2 items v i x2 Hrun Hx2)
    as (Hget3 & x3 & Hx3 & Hver3 & Hidx3 & Hdl3 & Hlp3).
  exists i, x3. splits; auto.
  - congruence.
  - destruct (GetItemByVersion_Some _ _ _ Hget2) as (y & Hy & Ey).
    assert (y = x2) as -> by congruence. congruence.
  - congruence.
  - destruct (Hfound (ex_intro _ d (conj Hd Hnames))) as (Hdl & d' & Hd' & Hn' & Hp').
    split; [congruence |]. exists d'. splits; auto. congruence.
Qed.

End Precedence.


(** * Further properties *)

(** ** Equality and the comparator of the sort *)

(** X1. [equal] is an equivalence on versions. *)
Theorem equal_equivalence :
  (forall a, equal a a = true)
  /\ (forall a b, equal a b = true -> equal b a = true)
  /\ (forall a b c, equal a b = true -> equal b c = true -> equal a c = true).
Proof.
  split; [exact equal_refl | split].
  - intros a b H. now rewrite equal_sym.
  - exact equal_trans.
Qed.

Lemma equal_equivalence_witness :
  equal (mkVersion 1 2 3 true 7 "aaa") (mkVersion 1 2 3 true 7 "ccc") = true.
Proof.
  apply (proj2 (proj2 equal_equivalence) _ (mkVersion 1 2 3 true 7 "bbb")); reflexivity.
Defined.

(** X2. The comparator handed to the sort, [moreThan], is "greater or
    equal": it holds exactly when the other version is less or the two are
    [equal]; so it holds of a version and itself, and it holds one way round
    at least for any two versions. *)
Theorem moreThan_is_greater_or_equal (a b : Version) :
  moreThan a b = lessThan b a || equal a b
  /\ moreThan a a = true
  /\ moreThan a b || moreThan b a = true.
Proof.
  unfold moreThan. rewrite lessThan_irrefl. splits; auto.
  - destruct (lessThan a b) eqn:Hab.
    + rewrite (lessThan_asym a b Hab).
      destruct (equal a b) eqn:He; [| reflexivity].
      rewrite (equal_not_lessThan a b He) in Hab. discriminate.
    + revert Hab. version_cases.
  - destruct (lessThan a b) eqn:Hab; [| reflexivity].
    now rewrite (lessThan_asym a b Hab).
Qed.

(** ** Strings: fields of a split *)

(** A byte that is the separator, or is not in the string, is in no field. *)
Lemma Split_fields_no_byte (s : string) (sep c : ascii) :
  c = sep \/ has_byte c s = false ->
  Forall (fun f => has_byte c f = false) (strings.Split s sep).
Proof.
  induction s as [| x r IH]; intros Hc; simpl.
  - repeat constructor.
  - assert (c = sep \/ has_byte c r = false) as Hr.
    { destruct Hc as [-> | H]; [now left |].
      simpl in H. apply orb_false_elim in H as [_ H]. now right. }
    specialize (IH Hr).
    destruct (Ascii.eqb_spec x sep) as [-> | Hx].
    + constructor; [reflexivity | exact IH].
    + destruct (strings.Split r sep) as [| h t]; [repeat constructor |].
      * simpl. rewrite orb_false_r.
        destruct Hc as [-> | H]; [now apply Ascii.eqb_neq |].
        simpl in H. now apply orb_false_elim in H as [H _].
      * inversion IH as [| ? ? Hh Ht]; subst. constructor; [| exact Ht].
        simpl. rewrite Hh, orb_false_r.
        destruct Hc as [-> | H]; [now apply Ascii.eqb_neq |].
        simpl in H. now apply orb_false_elim in H as [H _].
Qed.

(** With the separator in the string there are two fields at least. *)
Lemma Split_two_fields (s : string) (sep : ascii) :
  has_byte sep s = true -> exists a b rest, strings.Split s sep = a :: b :: rest.
Proof.
  induction s as [| x r IH]; simpl; [discriminate |].
  destruct (Ascii.eqb x sep); simpl.
  - intros _. destruct (Split_nonempty r sep) as (h & t & ->). eauto.
  - intros H. destruct (IH H) as (a & b & rest & ->). eauto.
Qed.

(** [Split] distributes over a separator between two strings. *)
Lemma Split_app (a b : string) (sep : ascii) :
  strings.Split (a ++ String sep b) sep
  = (strings.Split a sep ++ strings.Split b sep)%list.
Proof.
  induction a as [| x r IH]; simpl.
  - now rewrite Ascii.eqb_refl.
  - destruct (Ascii.eqb x sep); [now rewrite IH |].
    rewrite IH. destruct (Split_nonempty r sep) as (h & t & ->). reflexivity.
Qed.

Lemma Join_cons_byte (x : ascii) (h : string) (t : list string) (sep : string) :
  strings.Join (String x h :: t) sep = String x (strings.Join (h :: t) sep).
Proof. destruct t; reflexivity. Qed.

(** Joining the fields of a split with the separator gives the string back. *)
Lemma Join_Split (s : string) (sep : ascii) :
  strings.Join (strings.Split s sep) (String sep "") = s.
Proof.
  induction s as [| x r IH]; [reflexivity |].
  cbn [strings.Split].
  destruct (Split_nonempty r sep) as (h & t & E). rewrite E in *.
  destruct (Ascii.eqb_spec x sep) as [-> | _].
  - transitivity (String sep (strings.Join (h :: t) (String sep "")));
      [reflexivity | now rewrite IH].
  - now rewrite Join_cons_byte, IH.
Qed.

(** ** What the parser returns *)

Lemma ParseUint_loop_nonneg (s : string) (n : Z) :
  0 <= n -> 0 <= fst (strconv.ParseUint_loop s n).
Proof.
  revert n. induction s as [| c r IH]; intros n Hn; cbn [strconv.ParseUint_loop]; [exact Hn |].
  destruct (strconv.is_digit c); [| simpl; lia].
  destruct (_ <=? n); [simpl; lia |].
  destruct (_ || _); [simpl; lia |].
  apply IH. apply Z.mod_pos_bound. lia.
Qed.

(** Without a leading hyphen, [ParseInt] gives a value from 0 to 2^31-1,
    also next to an error. *)
Lemma ParseInt_int31 (s : string) :
  has_byte "-" s = false -> int31 (fst (strconv.ParseInt s)).
Proof.
  unfold int31. destruct s as [| c r]; [simpl; lia |].
  intros H. cbn [has_byte] in H. apply orb_false_elim in H as [Hc _].
  unfold strconv.ParseInt. rewrite Hc. cbn [negb andb orb].
  set (s := if Ascii.eqb c "+" || false then r else String c r).
  assert (0 <= fst (strconv.ParseUint s)) as Hun.
  { unfold strconv.ParseUint. destruct s; [simpl; lia |].
    now apply ParseUint_loop_nonneg. }
  destruct (strconv.ParseUint s) as [un [[] |]]; cbn [fst] in *;
    try (simpl; lia);
    destruct (Z.leb_spec (2 ^ 31) un); cbn [fst]; lia.
Qed.

(** X3. A version the parser returns has its numbers between 0 and 2^31-1;
    it is a dev version exactly when the input holds a hyphen; and a
    version that is not a dev version has build number 0 and no commit
    hash. *)
Theorem ParseVersion_wellformed (s : string) (v : Version) :
  ParseVersion s = Ok (Parsed v) ->
  int31 (Major v) /\ int31 (Minor v) /\ int31 (Patch v) /\ int31 (Build v)
  /\ Dev v = has_byte "-" s
  /\ (Dev v = false -> Build v = 0 /\ Commit v = "").
Proof.
  unfold ParseVersion. cbv zeta.
  pose proof (Split_fields_no_byte s "-" "-" (or_introl eq_refl)) as Hf.
  pose proof (Split_two_fields s "-") as Htwo.
  pose proof (Split_no_sep s "-") as Hone.
  destruct (strings.Split s "-") as [| sp0 t]; [discriminate |].
  cbn [index lookup list_lookup bind].
  inversion Hf as [| ? ? H0 Ht]; subst.
  pose proof (Split_fields_no_byte sp0 "." "-" (or_intror H0)) as Hf2.
  destruct (strings.Split sp0 ".") as [| s0 [| s1 [| s2 [| ? ?]]]];
    try discriminate.
  cbn [length Nat.eqb negb index lookup list_lookup bind].
  inversion Hf2 as [| ? ? Hs0 Hf3]; subst.
  inversion Hf3 as [| ? ? Hs1 Hf4]; subst.
  inversion Hf4 as [| ? ? Hs2 _]; subst.
  pose proof (ParseInt_int31 s0 Hs0) as HM.
  pose proof (ParseInt_int31 s1 Hs1) as Hm.
  pose proof (ParseInt_int31 s2 Hs2) as Hp.
  destruct (strconv.ParseInt s0) as [major e0], (strconv.ParseInt s1) as [minor e1],
           (strconv.ParseInt s2) as [patch [e2 |]]; [discriminate |].
  cbn [fst] in *.
  destruct t as [| sp1 rest]; cbn [length Nat.ltb Nat.leb].
  - intros [= <-]. cbn [Major Minor Patch Build Dev Commit].
    splits; auto; [unfold int31; lia |].
    destruct (has_byte "-" s); [| reflexivity].
    destruct (Htwo eq_refl) as (a & b & r & [=]).
  - cbn [index lookup list_lookup bind].
    inversion Ht as [| ? ? H1 _]; subst.
    pose proof (Split_fields_no_byte sp1 "." "-" (or_intror H1)) as Hg.
    destruct (strings.Split sp1 ".") as [| a [| tail l]]; try discriminate.
    cbn [index lookup list_lookup bind].
    inversion Hg as [| ? ? _ Hg1]; subst. inversion Hg1 as [| ? ? Htail _]; subst.
    pose proof (Split_fields_no_byte tail "+" "-" (or_intror Htail)) as Hh.
    destruct (strings.Split tail "+") as [| b l2]; [discriminate |].
    cbn [index lookup list_lookup bind].
    inversion Hh as [| ? ? Hb _]; subst.
    pose proof (ParseInt_int31 b Hb) as HB.
    destruct (strconv.ParseInt b) as [build [e3 |]]; [discriminate |].
    destruct l2 as [| c l3]; [discriminate |].
    cbn [index lookup list_lookup bind fst] in *.
    intros [= <-]. cbn [Major Minor Patch Build Dev Commit].
    splits; auto; [| discriminate].
    destruct (has_byte "-" s); [reflexivity |].
    specialize (Hone eq_refl). discriminate.
Qed.

Lemma ParseVersion_wellformed_witness :
  int31 0 /\ int31 11 /\ int31 0 /\ int31 1234
  /\ true = has_byte "-" "0.11.0-dev.1234+abc123de"
  /\ (true = false -> 1234 = 0 /\ "abc123de" = "").
Proof.
  apply (ParseVersion_wellformed "0.11.0-dev.1234+abc123de"
           (mkVersion 0 11 0 true 1234 "abc123de")).
  reflexivity.
Defined.

(** X4. An input without a dot (the empty string, a channel name such as
    master) gets the error "Failed to parse version", whatever else it
    holds; the parser does not panic on it. *)
Theorem ParseVersion_no_dot (s : string) :
  has_byte "." s = false -> ParseVersion s = Ok (Failed (ErrFailedToParse s)).
Proof.
  intros Hdot. unfold ParseVersion. cbv zeta.
  pose proof (Split_fields_no_byte s "-" "." (or_intror Hdot)) as Hf.
  destruct (Split_nonempty s "-") as (sp0 & t & E). rewrite E in *.
  inversion Hf as [| ? ? H0 _]; subst.
  cbn [index lookup list_lookup bind].
  now rewrite (Split_no_sep sp0 "." H0).
Qed.

Lemma ParseVersion_no_dot_witness :
  ParseVersion "master" = Ok (Failed (ErrFailedToParse "master")).
Proof. apply ParseVersion_no_dot. reflexivity. Defined.

(** X5. Display, then parse: the display form of a version that is not a
    dev version, with numbers from 0 to 2^31-1, parses to a version [equal]
    to it. *)
Theorem display_parse_release (v : Version) :
  Dev v = false -> int31 (Major v) -> int31 (Minor v) -> int31 (Patch v) ->
  exists v', ParseVersion (Version_String v) = Ok (Parsed v') /\ equal v v' = true.
Proof.
  intros Hdev HM Hm Hp.
  exists (mkVersion (Major v) (Minor v) (Patch v) false 0 "").
  split.
  - unfold Version_String. rewrite Hdev.
    now apply ParseVersion_release_form.
  - unfold equal. cbn [Dev Major Minor Patch]. rewrite Hdev, !Z.eqb_refl. reflexivity.
Qed.

Lemma display_parse_release_witness :
  exists v', ParseVersion (Version_String (mkVersion 0 10 1 false 0 ""))
             = Ok (Parsed v')
             /\ equal (mkVersion 0 10 1 false 0 "") v' = true.
Proof.
  apply display_parse_release; [reflexivity | | |]; unfold int31; simpl; lia.
Defined.

(** ** File names and the versions in them *)

Lemma ext_scan_plain (e : string) :
  has_byte "." e = false -> has_byte "/" e = false -> path.ext_scan e = (None, false).
Proof.
  induction e as [| c r IH]; [reflexivity |]. cbn [has_byte path.ext_scan].
  intros [Hc Hr]%orb_false_elim [Hc' Hr']%orb_false_elim.
  now rewrite (IH Hr Hr'), Hc, Hc'.
Qed.

(** The extension of a name that ends in a dot and a plain word. *)
Lemma Ext_app_dot (a e : string) :
  has_byte "." e = false -> has_byte "/" e = false ->
  path.Ext (a ++ String "." e) = String "." e.
Proof.
  intros He He'. unfold path.Ext.
  assert (path.ext_scan (a ++ String "." e) = (Some (String "." e), true)) as ->;
    [| reflexivity].
  induction a as [| c r IH]; cbn [append path.ext_scan].
  - now rewrite (ext_scan_plain e He He').
  - now rewrite IH.
Qed.

(** The version tag of a directory name with three hyphen-free words before
    it is what follows the third hyphen. *)
Lemma currentVersionTag_conv (a b c vtext : string) :
  has_byte "-" a = false -> has_byte "-" b = false -> has_byte "-" c = false ->
  currentVersionTag (a ++ String "-" (b ++ String "-" (c ++ String "-" vtext)))
  = Ok vtext.
Proof.
  intros Ha Hb Hc. unfold currentVersionTag. cbv zeta.
  rewrite !Split_app_sep by assumption.
  unfold slice_from. cbn [length Nat.leb drop bind].
  rewrite drop_0. now rewrite Join_Split.
Qed.

Lemma tarball_name_shape (os arch vtext : string) :
  has_byte "-" os = false -> has_byte "-" arch = false ->
  path.Ext (tarball_name os arch vtext) = ".xz"
  /\ tarballVersionTag (tarball_name os arch vtext) = Ok vtext.
Proof.
  intros Hos Harch. unfold tarball_name. split.
  - change ".tar.xz" with (".tar" ++ String "." "xz").
    rewrite <- append_assoc. now apply Ext_app_dot.
  - unfold tarballVersionTag. cbv zeta.
    change ".tar.xz" with (String "." "tar.xz").
    rewrite Split_app.
    change (strings.Split "tar.xz" ".") with ["tar"; "xz"].
    unfold slice_to. rewrite length_app. cbn [length].
    replace (Z.of_nat (length (strings.Split ("zig-" ++ os ++ "-" ++ arch ++ "-" ++ vtext) ".") + 2) - 2)
      with (Z.of_nat (length (strings.Split ("zig-" ++ os ++ "-" ++ arch ++ "-" ++ vtext) ".")))
      by lia.
    destruct (Z.leb_spec 0 (Z.of_nat (length (strings.Split ("zig-" ++ os ++ "-" ++ arch ++ "-" ++ vtext) "."))));
      [| lia].
    destruct (Z.leb_spec (Z.of_nat (length (strings.Split ("zig-" ++ os ++ "-" ++ arch ++ "-" ++ vtext) ".")))
                (Z.of_nat (length (strings.Split ("zig-" ++ os ++ "-" ++ arch ++ "-" ++ vtext) ".") + 2)%nat));
      [| lia].
    cbn [andb bind]. rewrite Nat2Z.id, take_app_length, Join_Split.
    change ("zig-" ++ os ++ "-" ++ arch ++ "-" ++ vtext)
      with ("zig" ++ String "-" (os ++ String "-" (arch ++ String "-" vtext))).
    apply (currentVersionTag_conv "zig" os arch vtext); auto.
Qed.

(** X6. A tarball named by the convention, with hyphen-free OS and
    architecture tags, has the extension [.xz], and the version tag cut out
    of its name is the version text, whatever that text is. *)
Theorem tarball_name_tag (os arch vtext : string) :
  has_byte "-" os = false -> has_byte "-" arch = false ->
  path.Ext (tarball_name os arch vtext) = ".xz"
  /\ tarballVersionTag (tarball_name os arch vtext) = Ok vtext.
Proof. apply tarball_name_shape. Qed.

Lemma tarball_name_tag_witness :
  path.Ext (tarball_name "linux" "x86_64" "0.11.0-dev.1234+abc123de") = ".xz"
  /\ tarballVersionTag (tarball_name "linux" "x86_64" "0.11.0-dev.1234+abc123de")
     = Ok "0.11.0-dev.1234+abc123de".
Proof. apply tarball_name_tag; reflexivity. Defined.

(** The version text of a version in range parses to an [equal] version. *)
Lemma ParseVersion_version_text (v : Version) :
  in_range v ->
  exists v', ParseVersion (version_text v) = Ok (Parsed v') /\ equal v v' = true.
Proof.
  intros (HM & Hm & Hp & HB). unfold version_text.
  destruct (Dev v) eqn:Hdev.
  - destruct (ParseVersion_dev_form _ _ _ _ (Commit v) HM Hm Hp HB) as (c' & E & _).
    eexists. split; [exact E |].
    unfold equal. cbn [Dev Major Minor Patch Build]. rewrite Hdev, !Z.eqb_refl. reflexivity.
  - eexists. split; [now apply ParseVersion_release_form |].
    unfold equal. cbn [Dev Major Minor Patch]. rewrite Hdev, !Z.eqb_refl. reflexivity.
Qed.

(** X25. A tarball named by the convention for a version in range is
    taken by the tarball fold as a tarball of that version: on a state
    without the version it appends a downloaded item that is not indexed,
    with the file's path; on a state with it, it marks the item the lookup
    gives as downloaded and gives it the file's path. *)
Theorem tarball_step_convention (home : string) (path_Join : list string -> string)
        (os arch : string) (v : Version) (isdir : bool) (items : AppState) :
  has_byte "-" os = false -> has_byte "-" arch = false -> in_range v ->
  let d := mkDirEntry (tarball_name os arch (version_text v)) isdir in
  let file := localDirPath home path_Join ["tarballs"; Name d] in
  names_version v d
  /\ exists v', equal v v' = true
      /\ tarball_step home path_Join items d
         = Ok (match GetItemByVersion items v with
               | Some i => alter (fun item => set_LocalPath file (set_Downloaded true item)) i items
               | None => (items ++ [mkItem v' true false false false file ""])%list
               end).
Proof.
  intros Hos Harch Hrange d file.
  destruct (tarball_name_shape os arch (version_text v) Hos Harch) as (Hext & Htag).
  destruct (ParseVersion_version_text v Hrange) as (v' & Hv' & Heq).
  split.
  - split; [exact Hext |]. exists (version_text v), v'. splits; auto.
  - exists v'. split; [exact Heq |].
    unfold tarball_step. cbv zeta. subst d. cbn [Name].
    rewrite Hext, String.eqb_refl, Htag. cbn [bind].
    unfold ParseVersion_or_panic. rewrite Hv'. cbn [bind].
    rewrite <- (GetItemByVersion_equal items v v' Heq).
    destruct (GetItemByVersion items v); reflexivity.
Qed.

Lemma tarball_step_convention_witness :
  let d := mkDirEntry (tarball_name "linux" "x86_64"
                         (version_text (mkVersion 0 9 1 false 0 ""))) false in
  let file := localDirPath "/home/u" join_slash ["tarballs"; Name d] in
  names_version (mkVersion 0 9 1 false 0 "") d
  /\ exists v', equal (mkVersion 0 9 1 false 0 "") v' = true
      /\ tarball_step "/home/u" join_slash [] d
         = Ok (match GetItemByVersion [] (mkVersion 0 9 1 false 0 "") with
               | Some i => alter (fun item => set_LocalPath file (set_Downloaded true item)) i []
               | None => ([] ++ [mkItem v' true false false false file ""])%list
               end).
Proof.
  apply (tarball_step_convention "/home/u" join_slash "linux" "x86_64"
           (mkVersion 0 9 1 false 0 "") false []); try reflexivity.
  unfold in_range, int31; simpl; lia.
Defined.

(** ** The extracted directory and the current-install fold *)

Lemma getHostOs_no_hyphen (GOOS os : string) :
  getHostOs GOOS = Ok os -> has_byte "-" os = false.
Proof.
  unfold getHostOs.
  destruct (String.eqb_spec GOOS "windows") as [-> |]; [now intros [= <-] |].
  destruct (String.eqb_spec GOOS "darwin") as [-> |]; [now intros [= <-] |].
  destruct (String.eqb_spec GOOS "linux") as [-> |]; [now intros [= <-] | discriminate].
Qed.

Lemma HasPrefix_zig (x : string) : strings.HasPrefix ("zig" ++ x) "zig" = true.
Proof. unfold strings.HasPrefix. simpl. destruct x; reflexivity. Qed.

(** The directory name, with the version text at its end. *)
Lemma extractedDirName_text (GOOS GOARCH os arch : string) (v : Version) :
  getHostOs GOOS = Ok os -> getHostArch GOARCH = Ok arch ->
  extractedDirName GOOS GOARCH v
  = Ok ("zig" ++ String "-" (os ++ String "-" (arch ++ String "-" (version_text v)))).
Proof.
  intros Hos Harch. unfold extractedDirName. rewrite Hos, Harch. cbn [bind].
  f_equal. unfold version_text, dev_form, release_form.
  destruct (Dev v); [| reflexivity].
  cbn [append]. do 4 f_equal.
  repeat (rewrite append_assoc; cbn [append]). reflexivity.
Qed.

(** X7. On a host whose architecture tag holds no hyphen (386 and arm64),
    the directory name that the activation computes for a version is read
    back by the current-install fold: the item the lookup of that version
    gives is marked current. *)
Theorem extracted_dir_recognised (GOOS GOARCH os arch : string) (v : Version)
        (items : AppState) (i : nat) (rest : list DirEntry) :
  getHostOs GOOS = Ok os -> getHostArch GOARCH = Ok arch ->
  has_byte "-" arch = false ->
  in_range v ->
  GetItemByVersion items v = Some i ->
  exists fname,
    extractedDirName GOOS GOARCH v = Ok fname
    /\ lookForCurrent (mkDirEntry fname true :: rest) items
       = Ok (alter (set_Current true) i items).
Proof.
  intros Hos Harch Hhyph Hrange Hget.
  eexists. split; [exact (extractedDirName_text GOOS GOARCH os arch v Hos Harch) |].
  cbn [lookForCurrent Name IsDir].
  rewrite HasPrefix_zig.
  cbn [andb].
  rewrite currentVersionTag_conv
    by (reflexivity || assumption || now apply (getHostOs_no_hyphen GOOS)).
  cbn [bind]. unfold ParseVersion_or_panic.
  destruct (ParseVersion_version_text v Hrange) as (v' & -> & Heq).
  cbn [bind]. now rewrite <- (GetItemByVersion_equal items v v' Heq), Hget.
Qed.

Lemma extracted_dir_recognised_witness :
  exists fname,
    extractedDirName "linux" "arm64" (mkVersion 0 11 0 true 1234 "abc123de") = Ok fname
    /\ lookForCurrent [mkDirEntry fname true]
         [mkItem (mkVersion 0 11 0 true 1234 "abc123de") true false true true "" ""]
       = Ok (alter (set_Current true) 0%nat
               [mkItem (mkVersion 0 11 0 true 1234 "abc123de") true false true true "" ""]).
Proof.
  apply (extracted_dir_recognised "linux" "arm64" "linux" "aarch64");
    try reflexivity.
  unfold in_range, int31; simpl; lia.
Defined.

(** X8. On amd64 the architecture tag is [x86-64], with a hyphen: the
    version tag cut out of the directory name that the activation computes
    starts with [64-], the parser rejects it, and the current-install fold
    panics on a directory of that name. *)
Theorem extracted_dir_amd64 (GOOS os : string) (v : Version)
        (items : AppState) (rest : list DirEntry) :
  getHostOs GOOS = Ok os ->
  exists fname,
    extractedDirName GOOS "amd64" v = Ok fname
    /\ currentVersionTag fname = Ok ("64-" ++ version_text v)
    /\ lookForCurrent (mkDirEntry fname true :: rest) items
       = Panic (PanicErr (ErrFailedToParse ("64-" ++ version_text v))).
Proof.
  intros Hos.
  assert (currentVersionTag
            ("zig" ++ String "-" (os ++ String "-" ("x86-64" ++ String "-" (version_text v))))
          = Ok ("64-" ++ version_text v)) as Htag.
  { change ("x86-64" ++ String "-" (version_text v))
      with ("x86" ++ String "-" ("64-" ++ version_text v)).
    apply currentVersionTag_conv; try reflexivity.
    now apply (getHostOs_no_hyphen GOOS). }
  eexists. split; [exact (extractedDirName_text GOOS "amd64" os "x86-64" v Hos eq_refl) |].
  split; [exact Htag |].
  cbn [lookForCurrent Name IsDir].
  rewrite HasPrefix_zig.
  cbn [andb]. rewrite Htag. cbn [bind].
  unfold ParseVersion_or_panic, ParseVersion. cbv zeta.
  change ("64-" ++ version_text v) with ("64" ++ String "-" (version_text v)).
  rewrite Split_app_sep by reflexivity.
  reflexivity.
Qed.

Lemma extracted_dir_amd64_witness :
  exists fname,
    extractedDirName "linux" "amd64" (mkVersion 0 10 1 false 0 "") = Ok fname
    /\ currentVersionTag fname = Ok ("64-" ++ version_text (mkVersion 0 10 1 false 0 ""))
    /\ lookForCurrent [mkDirEntry fname true] []
       = Panic (PanicErr (ErrFailedToParse
                            ("64-" ++ version_text (mkVersion 0 10 1 false 0 "")))).
Proof. apply (extracted_dir_amd64 "linux" "linux"). reflexivity. Defined.

(** ** The local path of a URL *)

(** The last field of a split is a suffix of the string, without the
    separator; what stands before it is empty or ends in the separator. *)
Lemma Split_last (s : string) (sep : ascii) :
  exists f pre,
    strings.Split s sep !! (length (strings.Split s sep) - 1)%nat = Some f
    /\ s = pre ++ f /\ has_byte sep f = false
    /\ (pre = "" \/ exists pre', pre = pre' ++ String sep "").
Proof.
  induction s as [| x r IH].
  - exists "", "". splits; auto.
  - destruct IH as (f & pre & Hl & Hr & Hf & Hpre). cbn [strings.Split].
    destruct (Split_nonempty r sep) as (h & t & E). rewrite E in *.
    destruct (Ascii.eqb_spec x sep) as [-> | Hx].
    + exists f, (String sep pre). cbn [length] in *.
      replace (S (S (length t)) - 1)%nat with (S (S (length t) - 1)) by lia.
      splits; auto; [simpl; now rewrite <- Hr |].
      right. destruct Hpre as [-> | (q & ->)]; [now exists "" | now exists (String sep q)].
    + destruct t as [| h' t'].
      * injection Hl as <-. exists (String x h), "".
        assert (r = h) as -> by (rewrite <- (Join_Split r sep), E; reflexivity).
        splits; auto. cbn [has_byte]. rewrite Hf, orb_false_r.
        now apply Ascii.eqb_neq.
      * exists f, (String x pre). cbn [length] in *.
        splits; auto; [simpl; now rewrite <- Hr |].
        right. destruct Hpre as [-> | (q & ->)]; [| now exists (String x q)].
        simpl in Hr. subst r. rewrite (Split_no_sep f sep Hf) in E. discriminate.
Qed.

(** X9. [localTarballPathFromUrl] panics only when [os.UserHomeDir] fails,
    with the error of that call: the split of the URL always has a last
    field.  Otherwise the local path is the tarball directory joined with the
    end of the URL after its last slash (the whole URL when it has none),
    which holds no slash; this is the path the remote fold works with. *)
Theorem localTarballPathFromUrl_filename (UserHomeDir : io string)
        (path_Join : list string -> string) (url : string) :
  exists filename pre,
    url = pre ++ filename
    /\ has_byte "/" filename = false
    /\ (pre = "" \/ exists pre', pre = pre' ++ "/")
    /\ localTarballPathFromUrl_env UserHomeDir path_Join url
       = match UserHomeDir with
         | Fail err => Panic (PanicErr err)
         | Got home => Ok (localDirPath home path_Join ["tarballs"; filename])
         end
    /\ (forall home,
          localTarballPathFromUrl home path_Join url
          = Ok (localDirPath home path_Join ["tarballs"; filename])).
Proof.
  destruct (Split_last url "/") as (f & pre & Hl & Hurl & Hf & Hpre).
  exists f, pre.
  unfold localTarballPathFromUrl_env, localDirPath_env, localTarballPathFromUrl, index.
  cbv zeta. rewrite Hl. cbn [bind]. splits; auto.
Qed.

(** ** The host descriptor *)

(** X10. [GetFileEntryForHost] returns for the eight pairs of OS and
    architecture that its switches list, whatever the record, and panics for
    every other pair; on such a host the remote fold panics at the first
    record of the index. *)
Theorem GetFileEntryForHost_supported (GOOS GOARCH home : string)
        (path_Join : list string -> string) (z : ZigIndexEntry) :
  (host_supported GOOS GOARCH = true ->
   exists o, GetFileEntryForHost GOOS GOARCH z = Ok o)
  /\ (host_supported GOOS GOARCH = false ->
      exists p, GetFileEntryForHost GOOS GOARCH z = Panic p
                /\ forall k rest items,
                     loadRemote GOOS GOARCH home path_Join ((k, z) :: rest) items = Panic p).
Proof.
  assert (host_supported GOOS GOARCH = false ->
          exists p, GetFileEntryForHost GOOS GOARCH z = Panic p) as Hpanic.
  { unfold host_supported, GetFileEntryForHost, getHostOs, getHostArch.
    destruct (String.eqb_spec GOOS "windows") as [-> |];
      [| destruct (String.eqb_spec GOOS "darwin") as [-> |];
         [| destruct (String.eqb_spec GOOS "linux") as [-> |]]];
      (destruct (String.eqb_spec GOARCH "386") as [-> |];
       [| destruct (String.eqb_spec GOARCH "amd64") as [-> |];
          [| destruct (String.eqb_spec GOARCH "arm64") as [-> |]]]);
      cbn; try discriminate; eauto. }
  split.
  - unfold host_supported, GetFileEntryForHost, getHostOs, getHostArch.
    destruct (String.eqb_spec GOOS "windows") as [-> |];
      [| destruct (String.eqb_spec GOOS "darwin") as [-> |];
         [| destruct (String.eqb_spec GOOS "linux") as [-> |]]];
      (destruct (String.eqb_spec GOARCH "386") as [-> |];
       [| destruct (String.eqb_spec GOARCH "amd64") as [-> |];
          [| destruct (String.eqb_spec GOARCH "arm64") as [-> |]]]);
      cbn; try discriminate; eauto.
  - intros H. destruct (Hpanic H) as (p & E). exists p. split; [exact E |].
    intros k rest items. cbn [loadRemote]. unfold remote_step. now rewrite E.
Qed.

Lemma GetFileEntryForHost_supported_witness :
  (exists o, GetFileEntryForHost "linux" "amd64" (linux_entry "" url_0_10_1) = Ok o)
  /\ (exists p, GetFileEntryForHost "darwin" "386" (linux_entry "" url_0_10_1) = Panic p
                /\ forall k rest items,
                     loadRemote "darwin" "386" "/home/u" join_slash
                                ((k, linux_entry "" url_0_10_1) :: rest) items = Panic p).
Proof.
  split.
  - apply (proj1 (GetFileEntryForHost_supported "linux" "amd64" "/home/u" join_slash _)).
    reflexivity.
  - apply (proj2 (GetFileEntryForHost_supported "darwin" "386" "/home/u" join_slash _)).
    reflexivity.
Defined.

(** ** Lookup by version, in full *)

(** X11. [GetItemByVersion] gives the first position that holds a version
    [equal] to the one looked up, and gives none only when no item holds
    one. *)
Theorem GetItemByVersion_first (items : AppState) (v : Version) :
  match GetItemByVersion items v with
  | Some i =>
      exists it, items !! i = Some it /\ equal (ItemVersion it) v = true
                 /\ forall j it', (j < i)%nat -> items !! j = Some it' ->
                                  equal (ItemVersion it') v = false
  | None => forall it, In it items -> equal (ItemVersion it) v = false
  end.
Proof.
  induction items as [| x items IH]; simpl; [intros it [] |].
  destruct (equal (ItemVersion x) v) eqn:Ex.
  - exists x. splits; auto. intros j it' Hj. lia.
  - destruct (GetItemByVersion items v) as [i |]; simpl.
    + destruct IH as (it & Hit & Eit & Hbefore).
      exists it. splits; auto.
      intros [| j] it' Hj; simpl; [now intros [= <-] |].
      apply Hbefore. lia.
    + intros it [<- | Hin]; auto.
Qed.

Lemma GetItemByVersion_first_witness :
  exists it,
    [mkItem (mkVersion 0 10 1 false 0 "") false false true false "" url_0_10_1;
     mkItem (mkVersion 0 11 0 true 7 "aaa") false false true true "" url_master;
     mkItem (mkVersion 0 11 0 true 7 "bbb") true false false false "" ""] !! 1%nat = Some it
    /\ equal (ItemVersion it) (mkVersion 0 11 0 true 7 "ccc") = true
    /\ forall j it', (j < 1)%nat ->
          [mkItem (mkVersion 0 10 1 false 0 "") false false true false "" url_0_10_1;
           mkItem (mkVersion 0 11 0 true 7 "aaa") false false true true "" url_master;
           mkItem (mkVersion 0 11 0 true 7 "bbb") true false false false "" ""] !! j = Some it' ->
          equal (ItemVersion it') (mkVersion 0 11 0 true 7 "ccc") = false.
Proof.
  exact (GetItemByVersion_first
           [mkItem (mkVersion 0 10 1 false 0 "") false false true false "" url_0_10_1;
            mkItem (mkVersion 0 11 0 true 7 "aaa") false false true true "" url_master;
            mkItem (mkVersion 0 11 0 true 7 "bbb") true false false false "" ""]
           (mkVersion 0 11 0 true 7 "ccc")).
Defined.

(** ** The remote fold, in full *)

Section RemoteFoldItems.

Variable GOOS GOARCH home : string.
Variable path_Join : list string -> string.

Lemma loadRemote_records (entries : list (string * ZigIndexEntry)) (items items' : AppState) :
  loadRemote GOOS GOARCH home path_Join entries items = Ok items' ->
  exists new,
    items' = (items ++ new)%list
    /\ Forall2 (item_of_record GOOS GOARCH)
               (List.filter (fun r => has_descriptor GOOS GOARCH (snd r)) entries) new.
Proof.
  revert items. induction entries as [| [k e] rest IH]; intros items; cbn [loadRemote].
  - intros [= <-]. exists []. split; [now rewrite app_nil_r | constructor].
  - destruct (remote_step GOOS GOARCH home path_Join items k e) as [items1 | |] eqn:E1;
      cbn [bind]; try discriminate.
    intros Hrest. destruct (IH _ Hrest) as (new & -> & Hnew).
    cbn [List.filter snd]. unfold has_descriptor.
    unfold remote_step in E1.
    destruct (GetFileEntryForHost GOOS GOARCH e) as [[fe |] | |] eqn:Efe; cbn [bind] in E1;
      try discriminate.
    + unfold ParseVersion_or_panic in E1.
      destruct (ParseVersion (versionString k e)) as [[v | err] | |] eqn:Ev;
        cbn [bind] in E1; try discriminate.
      destruct (localTarballPathFromUrl _ _ _) as [lp | |]; cbn [bind] in E1;
        try discriminate.
      injection E1 as <-. eexists. split; [now rewrite <- app_assoc |].
      constructor; [| exact Hnew].
      unfold item_of_record. cbn [fst snd]. rewrite Efe, Ev.
      splits; eauto; destruct (String.eqb (EntryVersion e) ""); reflexivity.
    + injection E1 as <-. eauto.
Qed.

(** X12. The remote fold makes one item per record that has a descriptor
    for the host, in the order of the records and for no other record: the
    item has the version parsed from the record's version string, the URL
    of the descriptor, and is indexed, not downloaded and not current. *)
Theorem loadRemote_items (entries : list (string * ZigIndexEntry)) (items : AppState) :
  loadRemote GOOS GOARCH home path_Join entries [] = Ok items ->
  Forall2 (item_of_record GOOS GOARCH)
          (List.filter (fun r => has_descriptor GOOS GOARCH (snd r)) entries) items.
Proof.
  intros H. destruct (loadRemote_records entries [] items H) as (new & -> & Hnew).
  exact Hnew.
Qed.

End RemoteFoldItems.

Lemma loadRemote_items_witness :
  Forall2 (item_of_record "linux" "amd64")
          (List.filter (fun r => has_descriptor "linux" "amd64" (snd r))
                       [("0.10.1", linux_entry "" url_0_10_1);
                        ("master", linux_entry "0.12.0-dev.100+abcdef12" url_master)])
          [mkItem (mkVersion 0 10 1 false 0 "") false false true false
             "/home/u/.zig-toolchain/tarballs/zig-linux-x86_64-0.10.1.tar.xz" url_0_10_1;
           mkItem (mkVersion 0 12 0 true 100 "abcdef12") false false true true
             "/home/u/.zig-toolchain/tarballs/zig-linux-x86_64-0.12.0-dev.100+abcdef12.tar.xz"
             url_master].
Proof.
  apply (loadRemote_items "linux" "amd64" "/home/u" join_slash). reflexivity.
Defined.

(** ** The tarball fold, in full *)

Section TarballFoldItems.

Variable home : string.
Variable path_Join : list string -> string.

(** What one round of the tarball loop does to the state. *)
Lemma tarball_step_shape (items items' : AppState) (d : DirEntry) :
  tarball_step home path_Join items d = Ok items' ->
  items' = items
  \/ (exists i, items' = alter (fun item => set_LocalPath (localDirPath home path_Join ["tarballs"; Name d])
                                            (set_Downloaded true item)) i items)
  \/ (exists w, GetItemByVersion items w = None
                /\ items' = (items ++ [mkItem w true false false false
                                         (localDirPath home path_Join ["tarballs"; Name d]) ""])%list).
Proof.
  unfold tarball_step. cbv zeta.
  destruct (String.eqb (path.Ext (Name d)) ".xz"); [| intros [= <-]; now left].
  destruct (tarballVersionTag (Name d)) as [tag | |]; cbn [bind]; try discriminate.
  destruct (ParseVersion_or_panic tag) as [w | |]; cbn [bind]; try discriminate.
  destruct (GetItemByVersion items w) as [i |] eqn:E; intros [= <-].
  - right. left. eauto.
  - right. right. exists w. split; [exact E | reflexivity].
Qed.

Lemma tarball_step_frame (items items' : AppState) (d : DirEntry) (i : nat) (it : Item) :
  tarball_step home path_Join items d = Ok items' ->
  items !! i = Some it ->
  exists it',
    items' !! i = Some it'
    /\ ItemVersion it' = ItemVersion it /\ Indexed it' = Indexed it
    /\ Master it' = Master it /\ RemoteUrl it' = RemoteUrl it
    /\ Current it' = Current it
    /\ (Downloaded it = true -> Downloaded it' = true).
Proof.
  intros Hstep Hit.
  destruct (tarball_step_shape _ _ _ Hstep) as [-> | [(j & ->) | (w & _ & ->)]].
  - exists it. splits; auto.
  - destruct (decide (j = i)) as [-> | Hne].
    + eexists. rewrite list_lookup_alter_eq, Hit. splits; auto; reflexivity.
    + exists it. rewrite list_lookup_alter_ne by exact Hne. splits; auto.
  - exists it. rewrite (lookup_app_l_Some _ _ _ _ Hit). splits; auto.
Qed.

(** X13. The tarball fold keeps every item it is given at its position,
    with its version, its indexed and master flags, its URL and its current
    flag; it may set the downloaded flag and never clears it; and it never
    shortens the state. *)
Theorem scanTarballs_frame (dir : list DirEntry) (items items' : AppState)
        (i : nat) (it : Item) :
  scanTarballs home path_Join dir items = Ok items' ->
  items !! i = Some it ->
  exists it',
    items' !! i = Some it'
    /\ ItemVersion it' = ItemVersion it /\ Indexed it' = Indexed it
    /\ Master it' = Master it /\ RemoteUrl it' = RemoteUrl it
    /\ Current it' = Current it
    /\ (Downloaded it = true -> Downloaded it' = true).
Proof.
  revert items it. induction dir as [| d rest IH]; intros items it; cbn [scanTarballs].
  - intros [= <-] Hit. exists it. splits; auto.
  - destruct (tarball_step home path_Join items d) as [items1 | |] eqn:E1; cbn [bind];
      try discriminate.
    intros Hrest Hit.
    destruct (tarball_step_frame _ _ _ _ _ E1 Hit) as (it1 & Hit1 & ? & ? & ? & ? & ? & ?).
    destruct (IH _ _ Hrest Hit1) as (it' & Hit' & ? & ? & ? & ? & ? & ?).
    exists it'. splits; auto; congruence.
Qed.

(** Distinctness is a matter of the versions at the positions. *)
Lemma distinct_versions_fmap (l l' : AppState) :
  ItemVersion <$> l' = ItemVersion <$> l -> distinct_versions l -> distinct_versions l'.
Proof.
  intros Hmap Hd i j a b Ha Hb Heq.
  assert ((ItemVersion <$> l) !! i = Some (ItemVersion a)) as Hi
    by (rewrite <- Hmap, list_lookup_fmap, Ha; reflexivity).
  assert ((ItemVersion <$> l) !! j = Some (ItemVersion b)) as Hj
    by (rewrite <- Hmap, list_lookup_fmap, Hb; reflexivity).
  rewrite list_lookup_fmap in Hi, Hj.
  destruct (l !! i) as [a0 |] eqn:Ea; [| discriminate].
  destruct (l !! j) as [b0 |] eqn:Eb; [| discriminate].
  injection Hi as Hi. injection Hj as Hj.
  apply (Hd i j a0 b0 Ea Eb). now rewrite Hi, Hj.
Qed.

Lemma fmap_ItemVersion_alter (f : Item -> Item) (l : AppState) (i : nat) :
  (forall it, ItemVersion (f it) = ItemVersion it) ->
  ItemVersion <$> alter f i l = ItemVersion <$> l.
Proof.
  intros Hf. revert i. unfold alter.
  induction l as [| x l IH]; intros [| i]; simpl; try reflexivity.
  - now rewrite Hf.
  - f_equal. apply IH.
Qed.

Lemma tarball_step_distinct (items items' : AppState) (d : DirEntry) :
  tarball_step home path_Join items d = Ok items' ->
  distinct_versions items -> distinct_versions items'.
Proof.
  intros Hstep Hd.
  destruct (tarball_step_shape _ _ _ Hstep) as [-> | [(j & ->) | (w & Hnone & ->)]];
    [exact Hd | |].
  - apply (distinct_versions_fmap items); [| exact Hd].
    now apply fmap_ItemVersion_alter.
  - assert (forall k x, items !! k = Some x -> equal (ItemVersion x) w = false) as Hno.
    { intros k x Hx. destruct (equal (ItemVersion x) w) eqn:Ex; [| reflexivity].
      destruct (GetItemByVersion_In items x w) as [n Hn]; [| exact Ex | congruence].
      apply list_elem_of_In. now apply (list_elem_of_lookup_2 items k). }
    intros i j a b Ha Hb Heq.
    apply lookup_app_Some in Ha as [Ha | [Hi Ha]];
      apply lookup_app_Some in Hb as [Hb | [Hj Hb]].
    + exact (Hd i j a b Ha Hb Heq).
    + apply list_lookup_singleton_Some in Hb as [_ <-]. cbn [ItemVersion] in Heq.
      rewrite (Hno i a Ha) in Heq. discriminate.
    + apply list_lookup_singleton_Some in Ha as [_ <-]. cbn [ItemVersion] in Heq.
      rewrite equal_sym, (Hno j b Hb) in Heq. discriminate.
    + apply list_lookup_singleton_Some in Ha as [Hi' _].
      apply list_lookup_singleton_Some in Hb as [Hj' _]. lia.
Qed.

Lemma scanTarballs_keeps_distinct (dir : list DirEntry) (items items' : AppState) :
  scanTarballs home path_Join dir items = Ok items' ->
  distinct_versions items -> distinct_versions items'.
Proof.
  revert items. induction dir as [| d rest IH]; intros items; cbn [scanTarballs].
  - now intros [= <-].
  - destruct (tarball_step home path_Join items d) as [items1 | |] eqn:E1; cbn [bind];
      try discriminate.
    intros Hrest Hd. apply (IH _ Hrest). now apply (tarball_step_distinct items _ d).
Qed.

(** X14. The tarball fold never makes a second item of a version: from a
    state in which no two items have [equal] versions it gives such a state
    again. *)
Theorem scanTarballs_distinct (dir : list DirEntry) (items items' : AppState) :
  scanTarballs home path_Join dir items = Ok items' ->
  distinct_versions items -> distinct_versions items'.
Proof. apply scanTarballs_keeps_distinct. Qed.

End TarballFoldItems.

Lemma scanTarballs_frame_witness :
  exists it',
    [mkItem (mkVersion 0 10 1 false 0 "") true false true false
       "/home/u/.zig-toolchain/tarballs/zig-linux-x86_64-0.10.1.tar.xz" url_mirror] !! 0%nat
    = Some it'
    /\ ItemVersion it' = mkVersion 0 10 1 false 0 "" /\ Indexed it' = true
    /\ Master it' = false /\ RemoteUrl it' = url_mirror /\ Current it' = false
    /\ (false = true -> Downloaded it' = true).
Proof.
  apply (scanTarballs_frame "/home/u" join_slash
           [mkDirEntry "zig-linux-x86_64-0.10.1.tar.xz" false]
           [mkItem (mkVersion 0 10 1 false 0 "") false false true false
              "/home/u/.zig-toolchain/tarballs/zig-0.10.1.tar.xz" url_mirror]
           _ 0%nat
           (mkItem (mkVersion 0 10 1 false 0 "") false false true false
              "/home/u/.zig-toolchain/tarballs/zig-0.10.1.tar.xz" url_mirror));
    reflexivity.
Defined.

Lemma scanTarballs_distinct_witness :
  distinct_versions
    [mkItem (mkVersion 0 10 1 false 0 "") false false true false "" url_0_10_1;
     mkItem (mkVersion 0 9 1 false 0 "") true false false false
       "/home/u/.zig-toolchain/tarballs/zig-linux-x86_64-0.9.1.tar.xz" ""].
Proof.
  apply (scanTarballs_distinct "/home/u" join_slash
           [mkDirEntry "zig-linux-x86_64-0.9.1.tar.xz" false; mkDirEntry "notes.txt" false]
           [mkItem (mkVersion 0 10 1 false 0 "") false false true false "" url_0_10_1]).
  - reflexivity.
  - intros [| i] [| j] a b Ha Hb _; try reflexivity; discriminate.
Defined.

(** ** The current-install fold, in full *)

(** X15. Of the entries of the current-install directory only the first
    directory whose name starts with [zig] counts: entries before it are
    skipped, entries after it are never looked at.  Without such an entry
    the state is left as it is; and when no item has the version that
    directory names, the fold panics. *)
Theorem lookForCurrent_first (pre post : list DirEntry) (d : DirEntry) (items : AppState) :
  Forall (fun e => is_zig_dir e = false) pre ->
  lookForCurrent pre items = Ok items
  /\ (is_zig_dir d = true ->
      lookForCurrent (pre ++ d :: post) items = lookForCurrent [d] items
      /\ forall tag v,
           currentVersionTag (Name d) = Ok tag ->
           ParseVersion tag = Ok (Parsed v) ->
           GetItemByVersion items v = None ->
           lookForCurrent (pre ++ d :: post) items
           = Panic (PanicMsg "current version is not downloaded!")).
Proof.
  intros Hpre.
  assert (forall l, lookForCurrent (pre ++ l) items = lookForCurrent l items) as Hskip.
  { intros l. induction Hpre as [| e pre He _ IH]; [reflexivity |].
    cbn [app lookForCurrent]. unfold is_zig_dir in He. now rewrite He. }
  split.
  - rewrite <- (app_nil_r pre). now rewrite Hskip.
  - intros Hd.
    assert (lookForCurrent (d :: post) items = lookForCurrent [d] items) as Hone.
    { cbn [lookForCurrent]. unfold is_zig_dir in Hd. now rewrite Hd. }
    split; [now rewrite Hskip |].
    intros tag v Htag Hv Hnone. rewrite Hskip, Hone.
    cbn [lookForCurrent]. unfold is_zig_dir in Hd. rewrite Hd, Htag. cbn [bind].
    unfold ParseVersion_or_panic. rewrite Hv. cbn [bind]. now rewrite Hnone.
Qed.

Lemma lookForCurrent_first_witness :
  lookForCurrent [mkDirEntry "README" false; mkDirEntry "zig.log" false] [] = Ok []
  /\ (is_zig_dir (mkDirEntry "zig-linux-x86_64-0.10.1" true) = true ->
      lookForCurrent ([mkDirEntry "README" false; mkDirEntry "zig.log" false]
                        ++ mkDirEntry "zig-linux-x86_64-0.10.1" true
                        :: [mkDirEntry "zig-linux-x86_64-0.9.1" true]) []
      = lookForCurrent [mkDirEntry "zig-linux-x86_64-0.10.1" true] []
      /\ forall tag v,
           currentVersionTag (Name (mkDirEntry "zig-linux-x86_64-0.10.1" true)) = Ok tag ->
           ParseVersion tag = Ok (Parsed v) ->
           GetItemByVersion [] v = None ->
           lookForCurrent ([mkDirEntry "README" false; mkDirEntry "zig.log" false]
                             ++ mkDirEntry "zig-linux-x86_64-0.10.1" true
                             :: [mkDirEntry "zig-linux-x86_64-0.9.1" true]) []
           = Panic (PanicMsg "current version is not downloaded!")).
Proof.
  apply lookForCurrent_first. repeat constructor.
Defined.

(** What the current-install fold does to the state. *)
Lemma lookForCurrent_shape (dir : list DirEntry) (items items' : AppState) :
  lookForCurrent dir items = Ok items' ->
  items' = items \/ exists k, items' = alter (set_Current true) k items.
Proof.
  induction dir as [| e rest IH]; cbn [lookForCurrent]; [intros [= <-]; now left |].
  destruct (strings.HasPrefix (Name e) "zig" && IsDir e); [| exact IH].
  destruct (currentVersionTag (Name e)) as [tag | |]; cbn [bind]; try discriminate.
  destruct (ParseVersion_or_panic tag) as [w | |]; cbn [bind]; try discriminate.
  destruct (GetItemByVersion items w) as [k |]; [| discriminate].
  intros [= <-]. right. eauto.
Qed.

(** ** The reconciled state *)

Section Reconciled.

Variable GOOS GOARCH home : string.
Variable path_Join : list string -> string.

(** Before the current-install fold every item is well formed and none is
    current. *)
Lemma folds_1_2_inv (entries : list (string * ZigIndexEntry)) (dir : list DirEntry)
      (items1 items2 : AppState) :
  loadRemote GOOS GOARCH home path_Join entries [] = Ok items1 ->
  scanTarballs home path_Join dir items1 = Ok items2 ->
  Forall (fun it => item_wf it /\ Current it = false) items2.
Proof.
  intros H1 H2.
  assert (Forall (fun it => item_wf it /\ Current it = false) items1) as Hinv.
  { destruct (loadRemote_records _ _ _ _ _ _ _ H1) as (new & Hnew & HF).
    cbn [app] in Hnew. subst new. clear H1 H2.
    induction HF as [| r it rs its Hr _ IH]; constructor; [| exact IH].
    destruct Hr as (_ & _ & _ & Hi & _ & Hc).
    split; [| exact Hc]. unfold item_wf. splits; auto. congruence. }
  clear H1. revert items1 H2 Hinv.
  induction dir as [| d rest IH]; intros items1; cbn [scanTarballs].
  - now intros [= <-].
  - destruct (tarball_step home path_Join items1 d) as [items' | |] eqn:E1; cbn [bind];
      try discriminate.
    intros H2 Hinv. apply (IH _ H2).
    destruct (tarball_step_shape _ _ _ _ _ E1) as [-> | [(j & ->) | (w & _ & ->)]];
      [exact Hinv | |].
    + apply Forall_alter; [exact Hinv |].
      intros x _ ((Ha & Hb & Hc) & Hd). split; [| exact Hd].
      unfold item_wf. cbn. splits; auto.
    + apply Forall_app. split; [exact Hinv |]. constructor; [| constructor].
      split; [| reflexivity]. unfold item_wf. cbn. splits; auto; discriminate.
Qed.

(** X16. Every item of a reconciled inventory is indexed or downloaded;
    only an indexed item is master; and an item that is not indexed has no
    URL. *)
Theorem Inventory_items_wf (entries : list (string * ZigIndexEntry))
        (tarballs current : list DirEntry) (inv : AppState) :
  Inventory GOOS GOARCH home path_Join (Got entries) (Got tarballs) (Got current) inv ->
  Forall item_wf inv.
Proof.
  intros (items & Hrun & Hperm). rewrite <- Hperm. clear Hperm inv.
  unfold reconcile in Hrun. cbn [or_panic bind] in Hrun.
  destruct (loadRemote _ _ _ _ entries []) as [items1 | |] eqn:E1; cbn [bind] in Hrun;
    try discriminate.
  destruct (scanTarballs _ _ tarballs items1) as [items2 | |] eqn:E2; cbn [bind] in Hrun;
    try discriminate.
  pose proof (folds_1_2_inv _ _ _ _ E1 E2) as Hinv.
  assert (Forall item_wf items2) as Hwf
    by (eapply Forall_impl; [exact Hinv | now intros x [Hx _]]).
  destruct (lookForCurrent_shape _ _ _ Hrun) as [-> | (k & ->)]; [exact Hwf |].
  apply Forall_alter; [exact Hwf |]. intros x _ Hx. exact Hx.
Qed.

Lemma reconcile_current_unique (entries : list (string * ZigIndexEntry))
        (tarballs current : list DirEntry) (items : AppState)
        (i j : nat) (a b : Item) :
  reconcile GOOS GOARCH home path_Join (Got entries) (Got tarballs) (Got current)
  = Ok items ->
  items !! i = Some a -> items !! j = Some b ->
  Current a = true -> Current b = true -> i = j.
Proof.
  intros Hrun Ha Hb Hca Hcb.
  unfold reconcile in Hrun. cbn [or_panic bind] in Hrun.
  destruct (loadRemote _ _ _ _ entries []) as [items1 | |] eqn:E1; cbn [bind] in Hrun;
    try discriminate.
  destruct (scanTarballs _ _ tarballs items1) as [items2 | |] eqn:E2; cbn [bind] in Hrun;
    try discriminate.
  pose proof (folds_1_2_inv _ _ _ _ E1 E2) as Hinv.
  rewrite Forall_lookup in Hinv.
  destruct (lookForCurrent_shape _ _ _ Hrun) as [-> | (k & ->)].
  - destruct (Hinv i a Ha) as [_ Hc]. congruence.
  - assert (forall n x, alter (set_Current true) k items2 !! n = Some x ->
                        Current x = true -> n = k) as Honly.
    { intros n x Hx Hc. destruct (decide (k = n)) as [-> | Hne]; [reflexivity |].
      rewrite list_lookup_alter_ne in Hx by exact Hne.
      destruct (Hinv n x Hx) as [_ Hc']. congruence. }
    rewrite (Honly i a Ha Hca), (Honly j b Hb Hcb). reflexivity.
Qed.

(** X17. A reconciled state has one current item at most. *)
Theorem reconcile_one_current (entries : list (string * ZigIndexEntry))
        (tarballs current : list DirEntry) (items : AppState)
        (i j : nat) (a b : Item) :
  reconcile GOOS GOARCH home path_Join (Got entries) (Got tarballs) (Got current)
  = Ok items ->
  items !! i = Some a -> items !! j = Some b ->
  Current a = true -> Current b = true -> i = j /\ a = b.
Proof.
  intros Hrun Ha Hb Hca Hcb.
  assert (i = j) as -> by exact (reconcile_current_unique _ _ _ _ _ _ _ _ Hrun Ha Hb Hca Hcb).
  split; [reflexivity | congruence].
Qed.

End Reconciled.

Lemma Inventory_items_wf_witness :
  Forall item_wf
    [mkItem (mkVersion 0 10 1 false 0 "") false true true false
       "/home/u/.zig-toolchain/tarballs/zig-linux-x86_64-0.10.1.tar.xz" url_0_10_1;
     mkItem (mkVersion 0 9 1 false 0 "") true false false false
       "/home/u/.zig-toolchain/tarballs/zig-linux-x86_64-0.9.1.tar.xz" ""].
Proof.
  apply (Inventory_items_wf "linux" "amd64" "/home/u" join_slash
           [("0.10.1", linux_entry "" url_0_10_1)]
           [mkDirEntry "zig-linux-x86_64-0.9.1.tar.xz" false]
           [mkDirEntry "zig-linux-x86_64-0.10.1" true]).
  eexists. split; [vm_compute; reflexivity | apply Permutation_refl].
Defined.

Lemma reconcile_one_current_witness :
  Current (mkItem (mkVersion 0 10 1 false 0 "") false true true false
             "/home/u/.zig-toolchain/tarballs/zig-linux-x86_64-0.10.1.tar.xz" url_0_10_1)
  = true
  /\ ((0 = 0)%nat
      /\ mkItem (mkVersion 0 10 1 false 0 "") false true true false
           "/home/u/.zig-toolchain/tarballs/zig-linux-x86_64-0.10.1.tar.xz" url_0_10_1
         = mkItem (mkVersion 0 10 1 false 0 "") false true true false
             "/home/u/.zig-toolchain/tarballs/zig-linux-x86_64-0.10.1.tar.xz" url_0_10_1).
Proof.
  split; [reflexivity |].
  apply (reconcile_one_current "linux" "amd64" "/home/u" join_slash
           [("0.10.1", linux_entry "" url_0_10_1)]
           [mkDirEntry "zig-linux-x86_64-0.9.1.tar.xz" false]
           [mkDirEntry "zig-linux-x86_64-0.10.1" true]
           [mkItem (mkVersion 0 10 1 false 0 "") false true true false
              "/home/u/.zig-toolchain/tarballs/zig-linux-x86_64-0.10.1.tar.xz" url_0_10_1;
            mkItem (mkVersion 0 9 1 false 0 "") true false false false
              "/home/u/.zig-toolchain/tarballs/zig-linux-x86_64-0.9.1.tar.xz" ""]
           0%nat 0%nat
           (mkItem (mkVersion 0 10 1 false 0 "") false true true false
              "/home/u/.zig-toolchain/tarballs/zig-linux-x86_64-0.10.1.tar.xz" url_0_10_1)
           (mkItem (mkVersion 0 10 1 false 0 "") false true true false
              "/home/u/.zig-toolchain/tarballs/zig-linux-x86_64-0.10.1.tar.xz" url_0_10_1));
    reflexivity.
Defined.

(** ** The current item *)

Lemma GetCurrentActiveItem_first (items : AppState) (i : nat) (a : Item) :
  (forall j b, (j < i)%nat -> items !! j = Some b -> Current b = false) ->
  items !! i = Some a -> Current a = true ->
  GetCurrentActiveItem items = Some a.
Proof.
  revert i. induction items as [| x items IH]; intros i Hbefore Ha Hc; [discriminate |].
  cbn [GetCurrentActiveItem]. destruct i as [| i].
  - injection Ha as ->. now rewrite Hc.
  - rewrite (Hbefore 0%nat x ltac:(lia) eq_refl).
    apply (IH i); auto. intros j b Hj Hb. apply (Hbefore (S j) b); [lia | exact Hb].
Qed.

(** X18. On a reconciled state [GetCurrentActiveItem] gives the item that
    is current, whichever position it has. *)
Theorem GetCurrentActiveItem_reconciled (GOOS GOARCH home : string)
        (path_Join : list string -> string)
        (entries : list (string * ZigIndexEntry))
        (tarballs current : list DirEntry) (items : AppState) (i : nat) (a : Item) :
  reconcile GOOS GOARCH home path_Join (Got entries) (Got tarballs) (Got current)
  = Ok items ->
  items !! i = Some a -> Current a = true ->
  GetCurrentActiveItem items = Some a.
Proof.
  intros Hrun Ha Hc. apply (GetCurrentActiveItem_first items i a); auto.
  intros j b Hj Hb. destruct (Current b) eqn:Hcb; [| reflexivity].
  pose proof (reconcile_current_unique _ _ _ _ _ _ _ _ _ _ _ _ Hrun Ha Hb Hc Hcb). lia.
Qed.

Lemma GetCurrentActiveItem_reconciled_witness :
  GetCurrentActiveItem
    [mkItem (mkVersion 0 10 1 false 0 "") false false true false
       "/home/u/.zig-toolchain/tarballs/zig-linux-x86_64-0.10.1.tar.xz" url_0_10_1;
     mkItem (mkVersion 0 9 1 false 0 "") true true false false
       "/home/u/.zig-toolchain/tarballs/zig-linux-x86_64-0.9.1.tar.xz" ""]
  = Some (mkItem (mkVersion 0 9 1 false 0 "") true true false false
            "/home/u/.zig-toolchain/tarballs/zig-linux-x86_64-0.9.1.tar.xz" "").
Proof.
  apply (GetCurrentActiveItem_reconciled "linux" "amd64" "/home/u" join_slash
           [("0.10.1", linux_entry "" url_0_10_1)]
           [mkDirEntry "zig-linux-x86_64-0.9.1.tar.xz" false]
           [mkDirEntry "zig-linux-x86_64-0.9.1" true]
           _ 1%nat); reflexivity.
Defined.

(** ** The download commands, in full *)

Lemma commandDownloadItem_returns (fetch : string -> string -> option error)
      (item item' : Item) (out : list string) :
  commandDownloadItem fetch item = (out, Ok item') -> item' = set_Downloaded true item.
Proof.
  unfold commandDownloadItem, downloadTarball.
  destruct (Downloaded item) eqn:Hd.
  - intros [= <- <-]. destruct item; cbn in *; now subst.
  - destruct (Indexed item); cbn [negb]; [| discriminate].
    destruct (fetch (RemoteUrl item) (LocalPath item)); [discriminate |].
    now intros [= <- <-].
Qed.

(** X19. When [commandDownloadItem] returns, the item is the one it was
    given with the downloaded flag set, and the command on it again only
    reports that the tarball is there; if the item was not downloaded
    before, it is indexed and the transport succeeded. *)
Theorem commandDownloadItem_post (fetch : string -> string -> option error)
        (item item' : Item) (out : list string) :
  commandDownloadItem fetch item = (out, Ok item') ->
  item' = set_Downloaded true item
  /\ commandDownloadItem fetch item' = (["Tarball already downloaded!" ++ nl], Ok item')
  /\ (Downloaded item = false ->
      Indexed item = true /\ fetch (RemoteUrl item) (LocalPath item) = None).
Proof.
  unfold commandDownloadItem, downloadTarball.
  destruct (Downloaded item) eqn:Hd.
  - intros [= <- <-]. rewrite Hd. splits; auto; [| discriminate].
    destruct item; cbn in *; now subst.
  - destruct (Indexed item) eqn:Hi; cbn [negb]; [| discriminate].
    destruct (fetch (RemoteUrl item) (LocalPath item)) eqn:Hf; [discriminate |].
    intros [= <- <-]. cbn [Downloaded set_Downloaded]. splits; auto.
Qed.

Lemma commandDownloadItem_post_witness :
  mkItem (mkVersion 0 10 1 false 0 "") true false true false "/t/z.tar.xz" url_0_10_1
  = set_Downloaded true
      (mkItem (mkVersion 0 10 1 false 0 "") false false true false "/t/z.tar.xz" url_0_10_1)
  /\ commandDownloadItem fetch_ok
       (mkItem (mkVersion 0 10 1 false 0 "") true false true false "/t/z.tar.xz" url_0_10_1)
     = (["Tarball already downloaded!" ++ nl],
        Ok (mkItem (mkVersion 0 10 1 false 0 "") true false true false "/t/z.tar.xz" url_0_10_1))
  /\ (Downloaded
        (mkItem (mkVersion 0 10 1 false 0 "") false false true false "/t/z.tar.xz" url_0_10_1)
      = false ->
      Indexed
        (mkItem (mkVersion 0 10 1 false 0 "") false false true false "/t/z.tar.xz" url_0_10_1)
      = true
      /\ fetch_ok
           (RemoteUrl
              (mkItem (mkVersion 0 10 1 false 0 "") false false true false "/t/z.tar.xz" url_0_10_1))
           (LocalPath
              (mkItem (mkVersion 0 10 1 false 0 "") false false true false "/t/z.tar.xz" url_0_10_1))
         = None).
Proof.
  apply (commandDownloadItem_post fetch_ok
           (mkItem (mkVersion 0 10 1 false 0 "") false false true false "/t/z.tar.xz" url_0_10_1)
           _ ["Downlading tarball " ++ url_0_10_1 ++ "..."; "Done!" ++ nl]).
  reflexivity.
Defined.

(** X20. The transport is consulted only for an item that is indexed and
    not downloaded: for any other item the command does the same whatever
    the transport would do. *)
Theorem commandDownloadItem_transport (fetch fetch' : string -> string -> option error)
        (item : Item) :
  Downloaded item = true \/ Indexed item = false ->
  commandDownloadItem fetch item = commandDownloadItem fetch' item.
Proof.
  unfold commandDownloadItem.
  intros [-> | Hi]; [reflexivity |].
  destruct (Downloaded item); [reflexivity |]. now rewrite Hi.
Qed.

Lemma commandDownloadItem_transport_witness :
  commandDownloadItem fetch_ok
    (mkItem (mkVersion 0 9 1 false 0 "") false false false false "" "")
  = commandDownloadItem (fun _ _ => Some (ErrIO "no route to host"))
      (mkItem (mkVersion 0 9 1 false 0 "") false false false false "" "").
Proof. apply commandDownloadItem_transport. right. reflexivity. Defined.

(** X21. Download by version: when no item has the version, the command
    prints "Invalid version!" and exits with status 1; when it returns, the
    state is the one it was given with the downloaded flag set on the first
    item of that version and nothing else changed. *)
Theorem commandDownloadVersion_spec (fetch : string -> string -> option error)
        (items : AppState) (v : Version) :
  (GetItemByVersion items v = None ->
   commandDownloadVersion fetch items v = (["Invalid version!"], Exit 1))
  /\ (forall out items',
        commandDownloadVersion fetch items v = (out, Ok items') ->
        exists i it,
          GetItemByVersion items v = Some i /\ items !! i = Some it
          /\ equal (ItemVersion it) v = true
          /\ items' = <[i := set_Downloaded true it]> items
          /\ forall j, j <> i -> items' !! j = items !! j).
Proof.
  unfold commandDownloadVersion, on_item. split; [now intros -> |].
  intros out items'.
  destruct (GetItemByVersion items v) as [i |] eqn:Hget; [| discriminate].
  destruct (GetItemByVersion_Some _ _ _ Hget) as (it & Hit & Heq). rewrite Hit.
  destruct (commandDownloadItem fetch it) as [o [it' | |]] eqn:E; cbn [bind];
    try discriminate.
  intros [= <- <-].
  rewrite (commandDownloadItem_returns fetch it it' o E).
  exists i, it. splits; auto.
  intros j Hj. now apply list_lookup_insert_ne.
Qed.

Lemma commandDownloadVersion_spec_witness :
  commandDownloadVersion fetch_ok
    [mkItem (mkVersion 0 10 1 false 0 "") false false true false "/t/z.tar.xz" url_0_10_1]
    (mkVersion 0 9 1 false 0 "")
  = (["Invalid version!"], Exit 1).
Proof.
  apply (proj1 (commandDownloadVersion_spec fetch_ok _ _)). reflexivity.
Defined.

Lemma find_master_None (items : AppState) :
  Forall (fun it => Master it = false) items -> find_master items = None.
Proof.
  induction 1 as [| x l Hx _ IH]; [reflexivity |].
  cbn [find_master]. now rewrite Hx, IH.
Qed.

(** The master loop stops at the first item with the master flag. *)
Lemma find_master_Some (items : AppState) (i : nat) :
  find_master items = Some i ->
  exists it, items !! i = Some it /\ Master it = true.
Proof.
  revert i. induction items as [| x l IH]; intros i; cbn [find_master]; [discriminate |].
  destruct (Master x) eqn:Hx.
  - intros [= <-]. eauto.
  - destruct (find_master l) as [j |]; [| discriminate].
    intros [= <-]. apply (IH j eq_refl).
Qed.

Section Commands.

Variable GOOS GOARCH home : string.
Variable path_Join : list string -> string.
Variable fetch_and_store : string -> string -> option error.
Variable mkdir_all : string -> option error.
Variable run_tar : string -> string -> option string.
Variable lstat : string -> option error.
Variable remove : string -> option error.
Variable symlink : string -> string -> option error.

Local Abbreviation activate :=
  (commandActivateItem GOOS GOARCH home path_Join fetch_and_store
                       mkdir_all run_tar lstat remove symlink).

(** X22. Without a master item, the download of master panics with
    "Master version not found!" and prints nothing, while the activation of
    master prints "Version not found!" and exits with status 1. *)
Theorem no_master_item (items : AppState) :
  Forall (fun it => Master it = false) items ->
  commandDownloadMaster fetch_and_store items
  = ([], Panic (PanicMsg "Master version not found!"))
  /\ commandActivateMaster GOOS GOARCH home path_Join fetch_and_store
                           mkdir_all run_tar lstat remove symlink items
     = ([EPrint ("Version not found!" ++ nl)], Exit 1).
Proof.
  intros H. unfold commandDownloadMaster, commandActivateMaster.
  now rewrite (find_master_None items H).
Qed.

(** The download inside the activation is [commandDownloadItem]. *)
Lemma downloadItem_act_agrees (item : Item) :
  prints (fst (downloadItem_act fetch_and_store item))
  = fst (commandDownloadItem fetch_and_store item)
  /\ snd (downloadItem_act fetch_and_store item)
     = snd (commandDownloadItem fetch_and_store item).
Proof.
  unfold downloadItem_act, commandDownloadItem, downloadTarball.
  destruct (Downloaded item); [split; reflexivity |].
  destruct (Indexed item); cbn [negb]; [| split; reflexivity].
  destruct (fetch_and_store (RemoteUrl item) (LocalPath item)); split; reflexivity.
Qed.

(** X23. The activation touches the disk only for an item that is not
    current and is downloaded or indexed; and it clears the current-install
    directory only when the tarball is there: the item was downloaded, or
    it is indexed and the transport has just succeeded. *)
Theorem activation_guards (item : Item) (t : list effect) (r : res Item) :
  activate item = (t, r) ->
  (forall e, In e t -> touches_disk e = true ->
             Current item = false /\ (Downloaded item = true \/ Indexed item = true))
  /\ (In (ERemoveAll (localDirPath home path_Join ["current"])) t ->
      Downloaded item = true
      \/ (Indexed item = true
          /\ fetch_and_store (RemoteUrl item) (LocalPath item) = None)).
Proof.
  unfold commandActivateItem, downloadItem_act.
  destruct (Current item) eqn:Hc.
  { intros [= <- <-]. split.
    - intros e [<- | []]. discriminate.
    - intros [[=] | []]. }
  destruct (Downloaded item) eqn:Hd; cbn [negb].
  { intros _. split; auto. }
  destruct (Indexed item) eqn:Hi; cbn [negb].
  2:{ cbn [act_bind]. intros [= <- <-]. split.
      - intros e [<- | []]. discriminate.
      - intros [[=] | []]. }
  destruct (fetch_and_store (RemoteUrl item) (LocalPath item)) eqn:Hf.
  { cbn [act_bind]. intros [= <- <-]. split; [auto |].
    intros [[=] | [[=] | []]]. }
  intros _. split; auto.
Qed.

(** X24. When the activation returns, it has done this and nothing else,
    in this order: the download if the item was not downloaded; the removal
    and the re-creation of the current-install directory; the extraction of
    the item's tarball there; the removal of the old link if there was one;
    the link to [zig] in the directory named after the version.  The item
    comes back downloaded, and its current flag is not set. *)
Theorem activation_success (item item' : Item) (t : list effect) :
  activate item = (t, Ok item') ->
  Current item = false
  /\ item' = set_Downloaded true item
  /\ Current item' = false
  /\ exists fname,
       extractedDirName GOOS GOARCH (ItemVersion item) = Ok fname
       /\ t = ((if Downloaded item then []
                else [EPrint ("Downlading tarball " ++ RemoteUrl item ++ "...");
                      EFetch (RemoteUrl item) (LocalPath item);
                      EPrint ("Done!" ++ nl)])
               ++ [ERemoveAll (localDirPath home path_Join ["current"]);
                   EMkdirAll (localDirPath home path_Join ["tarballs"]);
                   EMkdirAll (localDirPath home path_Join ["current"]);
                   EPrint "Extracting...";
                   ETar (LocalPath item) (localDirPath home path_Join ["current"]);
                   EPrint ("Done!" ++ nl);
                   EPrint "Creating symlink...";
                   ELstat (zigBinPath home path_Join)]
               ++ (match lstat (zigBinPath home path_Join) with
                   | None => [ERemove (zigBinPath home path_Join)]
                   | Some _ => []
                   end)
               ++ [ESymlink (path_Join [localDirPath home path_Join ["current"; fname]; "zig"])
                            (zigBinPath home path_Join);
                   EPrint ("Done!" ++ nl)])%list.
Proof.
  unfold commandActivateItem, downloadItem_act, ensureDirectories, extractedDirForVersion.
  cbv zeta.
  destruct (Current item) eqn:Hc; [discriminate |].
  assert (item = set_Downloaded true item \/ Downloaded item = false) as Hsame.
  { destruct (Downloaded item) eqn:Hd; [left | now right].
    destruct item; cbn in *; now subst. }
  destruct (Downloaded item) eqn:Hd; cbn [negb].
  - destruct Hsame as [Hsame | [=]].
    cbn [act_bind app].
    destruct (mkdir_all _); cbn [act_bind app]; [discriminate |].
    destruct (run_tar _ _); cbn [act_bind app]; [discriminate |].
    destruct (lstat _); cbn [act_bind app].
    + destruct (extractedDirName _ _ _) as [fname | |]; cbn [bind act_bind app];
        try discriminate.
      destruct (symlink _ _); cbn [act_bind app]; [discriminate |].
      intros [= <- <-]. splits; auto. exists fname. split; reflexivity.
    + destruct (remove _); cbn [act_bind app]; [discriminate |].
      destruct (extractedDirName _ _ _) as [fname | |]; cbn [bind act_bind app];
        try discriminate.
      destruct (symlink _ _); cbn [act_bind app]; [discriminate |].
      intros [= <- <-]. splits; auto. exists fname. split; reflexivity.
  - destruct (Indexed item); cbn [negb act_bind app]; [| discriminate].
    destruct (fetch_and_store _ _); cbn [act_bind app]; [discriminate |].
    cbn [LocalPath set_Downloaded ItemVersion].
    destruct (mkdir_all _); cbn [act_bind app]; [discriminate |].
    destruct (run_tar _ _); cbn [act_bind app]; [discriminate |].
    destruct (lstat _); cbn [act_bind app].
    + destruct (extractedDirName _ _ _) as [fname | |]; cbn [bind act_bind app];
        try discriminate.
      destruct (symlink _ _); cbn [act_bind app]; [discriminate |].
      intros [= <- <-]. splits; auto. exists fname. split; reflexivity.
    + destruct (remove _); cbn [act_bind app]; [discriminate |].
      destruct (extractedDirName _ _ _) as [fname | |]; cbn [bind act_bind app];
        try discriminate.
      destruct (symlink _ _); cbn [act_bind app]; [discriminate |].
      intros [= <- <-]. splits; auto. exists fname. split; reflexivity.
Qed.

End Commands.

Lemma no_master_item_witness :
  commandDownloadMaster fetch_ok
    [mkItem (mkVersion 0 10 1 false 0 "") false false true false "/t/z.tar.xz" url_0_10_1]
  = ([], Panic (PanicMsg "Master version not found!"))
  /\ commandActivateMaster "linux" "amd64" "/home/u" join_slash fetch_ok
       (fun _ => None) (fun _ _ => None) (fun _ => None) (fun _ => None) (fun _ _ => None)
       [mkItem (mkVersion 0 10 1 false 0 "") false false true false "/t/z.tar.xz" url_0_10_1]
     = ([EPrint ("Version not found!" ++ nl)], Exit 1).
Proof.
  apply no_master_item. repeat constructor.
Defined.

Lemma activation_guards_witness :
  let item := mkItem (mkVersion 0 10 1 false 0 "") false false true false
                "/home/u/.zig-toolchain/tarballs/zig-linux-x86_64-0.10.1.tar.xz"
                url_0_10_1 in
  exists t,
    commandActivateItem "linux" "arm64" "/home/u" join_slash fetch_ok
      (fun _ => None) (fun _ _ => Some "tar: Unexpected EOF in archive")
      (fun _ => None) (fun _ => None) (fun _ _ => None) item
    = (t, Panic (PanicMsg "tar: Unexpected EOF in archive"))
    /\ In (ERemoveAll (localDirPath "/home/u" join_slash ["current"])) t
    /\ touches_disk (ERemoveAll (localDirPath "/home/u" join_slash ["current"])) = true
    /\ (Current item = false /\ (Downloaded item = true \/ Indexed item = true))
    /\ (Downloaded item = true
        \/ (Indexed item = true
            /\ fetch_ok (RemoteUrl item) (LocalPath item) = None)).
Proof.
  cbv zeta. eexists. split; [vm_compute; reflexivity |].
  assert (In (ERemoveAll (localDirPath "/home/u" join_slash ["current"]))
             [EPrint ("Downlading tarball " ++ url_0_10_1 ++ "...");
              EFetch url_0_10_1
                     "/home/u/.zig-toolchain/tarballs/zig-linux-x86_64-0.10.1.tar.xz";
              EPrint ("Done!" ++ nl);
              ERemoveAll "/home/u/.zig-toolchain/current";
              EMkdirAll "/home/u/.zig-toolchain/tarballs";
              EMkdirAll "/home/u/.zig-toolchain/current";
              EPrint "Extracting...";
              ETar "/home/u/.zig-toolchain/tarballs/zig-linux-x86_64-0.10.1.tar.xz"
                   "/home/u/.zig-toolchain/current"]) as Hin
    by (vm_compute; tauto).
  destruct (activation_guards "linux" "arm64" "/home/u" join_slash fetch_ok
              (fun _ => None) (fun _ _ => Some "tar: Unexpected EOF in archive")
              (fun _ => None) (fun _ => None) (fun _ _ => None)
              (mkItem (mkVersion 0 10 1 false 0 "") false false true false
                 "/home/u/.zig-toolchain/tarballs/zig-linux-x86_64-0.10.1.tar.xz"
                 url_0_10_1)
              _ _ eq_refl) as [Hdisk Hclear].
  split; [exact Hin | split; [reflexivity | split]].
  - exact (Hdisk _ Hin eq_refl).
  - exact (Hclear Hin).
Defined.

Lemma activation_success_witness :
  exists t item',
    commandActivateItem "linux" "arm64" "/home/u" join_slash fetch_ok
      (fun _ => None) (fun _ _ => None) (fun _ => None) (fun _ => None) (fun _ _ => None)
      (mkItem (mkVersion 0 10 1 false 0 "") false false true false
         "/home/u/.zig-toolchain/tarballs/zig-linux-aarch64-0.10.1.tar.xz" url_0_10_1)
    = (t, Ok item')
    /\ item' = mkItem (mkVersion 0 10 1 false 0 "") true false true false
                 "/home/u/.zig-toolchain/tarballs/zig-linux-aarch64-0.10.1.tar.xz" url_0_10_1
    /\ In (ESymlink "/home/u/.zig-toolchain/current/zig-linux-aarch64-0.10.1/zig"
                    "/home/u/.local/bin/zig") t.
Proof.
  do 2 eexists. split; [vm_compute; reflexivity |].
  destruct (activation_success "linux" "arm64" "/home/u" join_slash fetch_ok
              (fun _ => None) (fun _ _ => None) (fun _ => None) (fun _ => None)
              (fun _ _ => None)
              (mkItem (mkVersion 0 10 1 false 0 "") false false true false
                 "/home/u/.zig-toolchain/tarballs/zig-linux-aarch64-0.10.1.tar.xz" url_0_10_1)
              _ _ eq_refl) as (_ & Hitem & _ & fname & _ & _).
  split; [exact Hitem |]. vm_compute. tauto.
Defined.

(** ** Fold field precedence, on an index without duplicates *)

Lemma distinct_versions_snoc (items : AppState) (new : Item) :
  distinct_versions items ->
  (forall k x, items !! k = Some x -> equal (ItemVersion x) (ItemVersion new) = false) ->
  distinct_versions (items ++ [new]).
Proof.
  intros Hd Hno i j a b Ha Hb Heq.
  apply lookup_app_Some in Ha as [Ha | [Hi Ha]];
    apply lookup_app_Some in Hb as [Hb | [Hj Hb]].
  - exact (Hd i j a b Ha Hb Heq).
  - apply list_lookup_singleton_Some in Hb as [_ <-].
    rewrite (Hno i a Ha) in Heq. discriminate.
  - apply list_lookup_singleton_Some in Ha as [_ <-].
    rewrite equal_sym, (Hno j b Hb) in Heq. discriminate.
  - apply list_lookup_singleton_Some in Ha as [Hi' _].
    apply list_lookup_singleton_Some in Hb as [Hj' _]. lia.
Qed.

Section PrecedenceDistinct.

Variable GOOS GOARCH home : string.
Variable path_Join : list string -> string.

(** From an index without duplicates the remote fold makes a state
    without duplicates. *)
Lemma loadRemote_distinct (entries : list (string * ZigIndexEntry)) :
  forall items items' : AppState,
    loadRemote GOOS GOARCH home path_Join entries items = Ok items' ->
    index_distinct GOOS GOARCH entries ->
    distinct_versions items ->
    (forall x r v, In x items -> In r entries ->
                   has_descriptor GOOS GOARCH (snd r) = true ->
                   ParseVersion (versionString (fst r) (snd r)) = Ok (Parsed v) ->
                   equal (ItemVersion x) v = false) ->
    distinct_versions items'.
Proof.
  induction entries as [| [k e] rest IH]; intros items items'; cbn [loadRemote].
  - now intros [= <-].
  - destruct (remote_step GOOS GOARCH home path_Join items k e) as [items1 | |] eqn:E1;
      cbn [bind]; try discriminate.
    intros Hrest Hidx Hd Hfresh. inversion Hidx as [| ? ? Hhead Htail]; subst.
    unfold remote_step in E1.
    destruct (GetFileEntryForHost GOOS GOARCH e) as [[fe |] | |] eqn:Efe; cbn [bind] in E1;
      try discriminate.
    2:{ injection E1 as <-. apply (IH _ _ Hrest Htail Hd).
        intros x r v Hx Hr. apply Hfresh; [exact Hx | now right]. }
    unfold ParseVersion_or_panic in E1.
    destruct (ParseVersion (versionString k e)) as [[v0 | err] | |] eqn:Ev;
      cbn [bind] in E1; try discriminate.
    destruct (localTarballPathFromUrl _ _ _) as [lp | |]; cbn [bind] in E1;
      try discriminate.
    injection E1 as <-.
    assert (has_descriptor GOOS GOARCH e = true) as Hdescr
      by (unfold has_descriptor; now rewrite Efe).
    apply (IH _ _ Hrest Htail).
    + apply distinct_versions_snoc; [exact Hd |].
      intros n x Hx. cbn [ItemVersion set_LocalPath set_RemoteUrl set_Indexed set_ItemVersion].
      apply (Hfresh x (k, e) v0); auto; [| now left].
      apply list_elem_of_In. now apply (list_elem_of_lookup_2 items n).
    + intros x r v Hx Hr Hdr Hv. apply in_app_or in Hx as [Hx | [<- | []]].
      * apply (Hfresh x r v); auto. now right.
      * cbn [ItemVersion set_LocalPath set_RemoteUrl set_Indexed set_ItemVersion].
        destruct (equal v0 v) eqn:Heq; [| reflexivity].
        rewrite Forall_forall in Hhead. exfalso.
        apply (Hhead r (proj2 (list_elem_of_In _ _) Hr)).
        unfold same_version. cbn [fst snd]. splits; auto. exists v0, v. splits; auto.
Qed.

(** The three folds keep an index without duplicates without duplicates. *)
Lemma reconcile_distinct (entries : list (string * ZigIndexEntry))
      (tarballs current : list DirEntry) (items : AppState) :
  reconcile GOOS GOARCH home path_Join (Got entries) (Got tarballs) (Got current)
  = Ok items ->
  index_distinct GOOS GOARCH entries ->
  distinct_versions items.
Proof.
  intros Hrun Hidx. unfold reconcile in Hrun. cbn [or_panic bind] in Hrun.
  destruct (loadRemote _ _ _ _ entries []) as [items1 | |] eqn:E1; cbn [bind] in Hrun;
    try discriminate.
  destruct (scanTarballs _ _ tarballs items1) as [items2 | |] eqn:E2; cbn [bind] in Hrun;
    try discriminate.
  assert (distinct_versions items1) as H1.
  { apply (loadRemote_distinct entries [] items1 E1 Hidx).
    - intros i j a b Ha. discriminate.
    - intros x r v []. }
  pose proof (scanTarballs_keeps_distinct _ _ _ _ _ E2 H1) as H2.
  destruct (lookForCurrent_shape _ _ _ Hrun) as [-> | (n & ->)]; [exact H2 |].
  apply (distinct_versions_fmap items2); [| exact H2].
  now apply fmap_ItemVersion_alter.
Qed.

(** C5, as the code has it.  When no two records of the index give items
    of [equal] versions, a version that the index lists with a descriptor
    for the host and that a tarball in the local directory names has one
    item in the reconciled inventory, the one the lookup by version finds
    there: it is indexed and downloaded, and its local path is the path of
    a tarball of that version found in the directory; when one file name
    carries the version, it is the path of that file. *)
Theorem fold_field_precedence (entries : list (string * ZigIndexEntry))
        (tarballs current : list DirEntry) (inv : AppState)
        (k : string) (e : ZigIndexEntry) (fe : ZigIndexFileEntry) (v : Version)
        (d : DirEntry) :
  Inventory GOOS GOARCH home path_Join (Got entries) (Got tarballs) (Got current) inv ->
  index_distinct GOOS GOARCH entries ->
  In (k, e) entries ->
  GetFileEntryForHost GOOS GOARCH e = Ok (Some fe) ->
  ParseVersion (versionString k e) = Ok (Parsed v) ->
  In d tarballs ->
  names_version v d ->
  exists i it,
    GetItemByVersion inv v = Some i
    /\ inv !! i = Some it
    /\ Indexed it = true
    /\ Downloaded it = true
    /\ (exists d', In d' tarballs /\ names_version v d'
                   /\ LocalPath it = localDirPath home path_Join ["tarballs"; Name d'])
    /\ ((forall d', In d' tarballs -> names_version v d' -> Name d' = Name d) ->
        LocalPath it = localDirPath home path_Join ["tarballs"; Name d])
    /\ (forall it', In it' inv -> equal (ItemVersion it') v = true -> it' = it).
Proof.
  intros (items & Hrun & Hperm) Hidx Hin Hfe Hv Hd Hnames.
  destruct (reconcile_precedence GOOS GOARCH home path_Join entries tarballs current
              items k e fe v d Hrun Hin Hfe Hv Hd Hnames)
    as (i0 & it & _ & Hit & Heq & Hindexed & Hdl & d' & Hd' & Hn' & Hp').
  pose proof (reconcile_distinct entries tarballs current items Hrun Hidx) as Hdist.
  assert (In it inv) as Hitinv.
  { apply (Permutation_in it Hperm). apply list_elem_of_In.
    now apply (list_elem_of_lookup_2 items i0). }
  assert (forall it', In it' inv -> equal (ItemVersion it') v = true -> it' = it) as Huniq.
  { intros it' Hin' Heq'.
    apply (Permutation_in it' (Permutation_sym Hperm)) in Hin'.
    apply list_elem_of_In, list_elem_of_lookup_1 in Hin' as [j Hj].
    assert (j = i0) as ->; [| congruence].
    apply (Hdist j i0 it' it Hj Hit).
    apply (equal_trans _ v); [exact Heq' | now rewrite equal_sym]. }
  destruct (GetItemByVersion_In inv it v Hitinv Heq) as [i Hget].
  destruct (GetItemByVersion_Some _ _ _ Hget) as (it2 & Hit2 & Heq2).
  assert (it2 = it) as ->.
  { apply Huniq; [| exact Heq2]. apply list_elem_of_In.
    now apply (list_elem_of_lookup_2 inv i). }
  exists i, it. splits; auto.
  - eauto.
  - intros Hone. rewrite Hp'. now rewrite (Hone d' Hd' Hn').
Qed.

End PrecedenceDistinct.

Lemma fold_field_precedence_witness :
  exists i it,
    GetItemByVersion
      [mkItem (mkVersion 0 10 1 false 0 "") true false true false
         "/home/u/.zig-toolchain/tarballs/zig-linux-x86_64-0.10.1.tar.xz" url_mirror]
      (mkVersion 0 10 1 false 0 "") = Some i
    /\ [mkItem (mkVersion 0 10 1 false 0 "") true false true false
          "/home/u/.zig-toolchain/tarballs/zig-linux-x86_64-0.10.1.tar.xz" url_mirror] !! i
       = Some it
    /\ Indexed it = true
    /\ Downloaded it = true
    /\ (exists d', In d' [mkDirEntry "zig-linux-x86_64-0.10.1.tar.xz" false]
                   /\ names_version (mkVersion 0 10 1 false 0 "") d'
                   /\ LocalPath it
                      = localDirPath "/home/u" join_slash ["tarballs"; Name d'])
    /\ ((forall d', In d' [mkDirEntry "zig-linux-x86_64-0.10.1.tar.xz" false] ->
                    names_version (mkVersion 0 10 1 false 0 "") d' ->
                    Name d' = Name (mkDirEntry "zig-linux-x86_64-0.10.1.tar.xz" false)) ->
        LocalPath it
        = localDirPath "/home/u" join_slash
            ["tarballs"; Name (mkDirEntry "zig-linux-x86_64-0.10.1.tar.xz" false)])
    /\ (forall it',
          In it' [mkItem (mkVersion 0 10 1 false 0 "") true false true false
                    "/home/u/.zig-toolchain/tarballs/zig-linux-x86_64-0.10.1.tar.xz"
                    url_mirror] ->
          equal (ItemVersion it') (mkVersion 0 10 1 false 0 "") = true -> it' = it).
Proof.
  apply (fold_field_precedence "linux" "amd64" "/home/u" join_slash
           [("0.10.1", linux_entry "" url_mirror)]
           [mkDirEntry "zig-linux-x86_64-0.10.1.tar.xz" false] []
           _ "0.10.1" (linux_entry "" url_mirror)
           (mkFileEntry url_mirror "" "")).
  - eexists. split; [vm_compute; reflexivity | apply Permutation_refl].
  - repeat constructor.
  - simpl. auto.
  - reflexivity.
  - reflexivity.
  - simpl. auto.
  - split; [reflexivity |]. exists "0.10.1", (mkVersion 0 10 1 false 0 "").
    splits; reflexivity.
Defined.

(** C5 as stated fails: the index lists 0.10.1 twice, under its own key and
    under a channel name, and the tarball of 0.10.1 is on disk.  The folds
    mark the first of the two items only; the second stays not downloaded,
    with the path derived from its URL, in every order of the inventory,
    and it is the item the lookup by version finds when the sort has put it
    first. *)
Lemma duplicate_version_not_downloaded :
  let entries := [("0.10.1", linux_entry "" url_0_10_1);
                  ("stable", linux_entry "0.10.1" url_stable)] in
  let tarballs := [mkDirEntry "zig-linux-x86_64-0.10.1.tar.xz" false] in
  let first := mkItem (mkVersion 0 10 1 false 0 "") true false true false
                 "/home/u/.zig-toolchain/tarballs/zig-linux-x86_64-0.10.1.tar.xz"
                 url_0_10_1 in
  let second := mkItem (mkVersion 0 10 1 false 0 "") false false true true
                  "/home/u/.zig-toolchain/tarballs/stable.tar.xz" url_stable in
  reconcile "linux" "amd64" "/home/u" join_slash (Got entries) (Got tarballs) (Got [])
  = Ok [first; second]
  /\ (forall inv,
        Inventory "linux" "amd64" "/home/u" join_slash
                  (Got entries) (Got tarballs) (Got []) inv ->
        In second inv)
  /\ Inventory "linux" "amd64" "/home/u" join_slash
               (Got entries) (Got tarballs) (Got []) [second; first]
  /\ GetItemByVersion [second; first] (mkVersion 0 10 1 false 0 "") = Some 0%nat
  /\ Downloaded second <> true
  /\ LocalPath second
     <> localDirPath "/home/u" join_slash ["tarballs"; "zig-linux-x86_64-0.10.1.tar.xz"].
Proof.
  cbv zeta. splits.
  - reflexivity.
  - intros inv (items & Hrun & Hperm).
    assert (items = [mkItem (mkVersion 0 10 1 false 0 "") true false true false
                       "/home/u/.zig-toolchain/tarballs/zig-linux-x86_64-0.10.1.tar.xz"
                       url_0_10_1;
                     mkItem (mkVersion 0 10 1 false 0 "") false false true true
                       "/home/u/.zig-toolchain/tarballs/stable.tar.xz" url_stable]) as ->
      by (vm_compute in Hrun; now injection Hrun as <-).
    apply (Permutation_in _ Hperm). right. now left.
  - eexists. split; [vm_compute; reflexivity | apply perm_swap].
  - reflexivity.
  - discriminate.
  - discriminate.
Qed.
